(** * The Oracle Linux vulnerability source updater (package [oracle])

    A shallow embedding of the updater that reads Oracle's OVAL feed
    (ELSA advisories): the advisory-id ordering [compareELSA], the
    expansion of a criteria tree into possibilities ([getCriterions],
    [getPossibilities]), the extraction of affected features
    ([toFeatures]), the synthesis of vulnerability records ([parseELSA],
    [name], [link], [severity], [description]) and the batch driver
    ([Update], [largest]).

    Go values are modelled as follows.
    - [int] is a 64-bit integer, held in [Z]; the only arithmetic the
      package does on it (a difference of two string lengths, an index
      plus a constant) cannot leave the range.
    - [string] is a sequence of bytes, held in Stdlib's [string] (one
      [ascii] per byte).
    - A run-time panic (a slice expression out of range) is the outcome
      [Panic] of the [exec] monad; a Go [error] value is ordinary data.
    - A [map] is a [gmap]; the order in which Go ranges over a map is
      unspecified, so statements about [toFeatures] speak of membership.
    - Logging has no effect on any returned value and is left out. *)

From Stdlib Require Import ZArith String Ascii List Lia.
From Stdlib Require OrderedTypeEx.
From stdpp Require Import base option gmap strings list.

Local Open Scope string_scope.
Local Open Scope list_scope.
Local Open Scope Z_scope.

(** ** Outcomes of a Go call that may panic *)

Inductive exec (A : Type) : Type :=
| Done (a : A)
| Panic.
Arguments Done {A} a.
Arguments Panic {A}.

#[global] Instance exec_ret : MRet exec := fun A a => Done a.

#[global] Instance exec_bind : MBind exec := fun A B k m =>
  match m with
  | Done a => k a
  | Panic => Panic
  end.

(** A loop [for _, x := range xs { st = body(st, x) }] whose body may panic. *)
Fixpoint forRange {A S : Type} (body : S -> A -> exec S) (xs : list A) (st : S)
  : exec S :=
  match xs with
  | [] => Done st
  | x :: xs' => st' ← body st x; forRange body xs' st'
  end.

(** ** Package [strings] *)

Module Strings.

Definition len (s : string) : Z := Z.of_nat (String.length s).

Fixpoint HasPrefix (s prefix : string) : bool :=
  match prefix with
  | EmptyString => true
  | String p prefix' =>
      match s with
      | EmptyString => false
      | String c s' => Ascii.eqb c p && HasPrefix s' prefix'
      end
  end.

(** [Index s substr]: the byte offset of the first occurrence of
    [substr] in [s], or [-1]. *)
Fixpoint Index (s substr : string) : Z :=
  if HasPrefix s substr then 0
  else match s with
       | EmptyString => -1
       | String _ s' =>
           let i := Index s' substr in
           if i <? 0 then -1 else i + 1
       end.

Definition Contains (s substr : string) : bool := 0 <=? Index s substr.

(** The slice expression [s[lo:hi]]; out of range it panics. *)
Definition slice (s : string) (lo hi : Z) : exec string :=
  if (0 <=? lo) && (lo <=? hi) && (hi <=? len s)
  then Done (String.substring (Z.to_nat lo) (Z.to_nat (hi - lo)) s)
  else Panic.

(** [s[lo:]] and [s[:hi]]. *)
Definition sliceFrom (s : string) (lo : Z) : exec string := slice s lo (len s).
Definition sliceTo (s : string) (hi : Z) : exec string := slice s 0 hi.

(** [Replace s old new (-1)] for a non-empty [old], the only use the
    package makes of it: occurrences are found left to right and do not
    overlap.  [skip] counts the bytes of a match still to be passed. *)
Fixpoint replaceFrom (old new : string) (skip : nat) (s : string) : string :=
  match s with
  | EmptyString => EmptyString
  | String c s' =>
      match skip with
      | S k => replaceFrom old new k s'
      | O =>
          if HasPrefix s old
          then new +:+ replaceFrom old new (Nat.pred (String.length old)) s'
          else String c (replaceFrom old new 0 s')
      end
  end.

Definition ReplaceAll (s old new : string) : string := replaceFrom old new 0 s.

Definition bytes (l : list nat) : string :=
  string_of_list_ascii (List.map ascii_of_nat l).

(** The UTF-8 encodings of the runes [unicode.IsSpace] accepts. *)
Definition spaceRunes : list string :=
  List.map bytes
    [ [9]; [10]; [11]; [12]; [13]; [32];
      [194; 133]; [194; 160]; [225; 154; 128];
      [226; 128; 128]; [226; 128; 129]; [226; 128; 130]; [226; 128; 131];
      [226; 128; 132]; [226; 128; 133]; [226; 128; 134]; [226; 128; 135];
      [226; 128; 136]; [226; 128; 137]; [226; 128; 138];
      [226; 128; 168]; [226; 128; 169]; [226; 128; 175];
      [226; 129; 159]; [227; 128; 128] ]%nat.

Definition rev (s : string) : string :=
  string_of_list_ascii (List.rev (list_ascii_of_string s)).

Fixpoint dropN (n : nat) (s : string) : string :=
  match n, s with
  | S n', String _ s' => dropN n' s'
  | _, _ => s
  end.

(** The length of the first of [runes] that starts [s], if any. *)
Fixpoint leadingRune (runes : list string) (s : string) : option nat :=
  match runes with
  | [] => None
  | r :: runes' =>
      if HasPrefix s r then Some (String.length r) else leadingRune runes' s
  end.

Fixpoint trimLeft (runes : list string) (fuel : nat) (s : string) : string :=
  match fuel with
  | O => s
  | S fuel' =>
      match leadingRune runes s with
      | Some n => trimLeft runes fuel' (dropN n s)
      | None => s
      end
  end.

(** [TrimSpace s]: leading and trailing white space removed. *)
Definition TrimSpace (s : string) : string :=
  let s1 := trimLeft spaceRunes (String.length s) s in
  rev (trimLeft (List.map rev spaceRunes) (String.length s1) (rev s1)).

Definition lowerByte (c : ascii) : ascii :=
  let n := nat_of_ascii c in
  if (65 <=? n)%nat && (n <=? 90)%nat then ascii_of_nat (n + 32) else c.

(** [ToLower] on the ASCII letters; other bytes are kept. *)
Fixpoint ToLower (s : string) : string :=
  match s with
  | EmptyString => EmptyString
  | String c s' => String (lowerByte c) (ToLower s')
  end.

End Strings.

(** ** Package [strconv] *)

Module Strconv.

Definition maxInt : Z := 2 ^ 63 - 1.
Definition minInt : Z := - 2 ^ 63.
Definition maxUint64 : Z := 2 ^ 64 - 1.

Inductive NumError : Type := ErrSyntax | ErrRange.

Definition digitChar (d : Z) : ascii := ascii_of_nat (48 + Z.to_nat d).

(** The decimal digits of [u], written in front of [acc], least
    significant digit first as [formatBits] does.  Twenty rounds cover
    every 64-bit value. *)
Fixpoint formatBits (fuel : nat) (u : Z) (acc : string) : string :=
  match fuel with
  | O => acc
  | S fuel' =>
      let acc' := String (digitChar (u mod 10)) acc in
      if u / 10 =? 0 then acc' else formatBits fuel' (u / 10) acc'
  end.

Definition Itoa (i : Z) : string :=
  if i <? 0 then String "-" (formatBits 20 (- i) "") else formatBits 20 i "".

(** The value of a byte as a decimal digit: [c - '0'] in byte arithmetic. *)
Definition digitVal (c : ascii) : Z := (Z.of_nat (nat_of_ascii c) - 48) mod 256.

(** [ParseUint s 10 64] after the empty-string test: [n] is the value
    read so far. *)
Fixpoint parseDigits (n : Z) (s : string) : Z * option NumError :=
  match s with
  | EmptyString => (n, None)
  | String c s' =>
      let d := digitVal c in
      if 9 <? d then (0, Some ErrSyntax)
      else if maxUint64 <? n * 10 + d then (maxUint64, Some ErrRange)
      else parseDigits (n * 10 + d) s'
  end.

Definition ParseUint (s : string) : Z * option NumError :=
  match s with
  | EmptyString => (0, Some ErrSyntax)
  | _ => parseDigits 0 s
  end.

(** [Atoi s]: the value and the error, as Go returns both. *)
Definition Atoi (s : string) : Z * option NumError :=
  match s with
  | EmptyString => (0, Some ErrSyntax)
  | String c s' =>
      let neg := Ascii.eqb c "-" in
      let body := if neg || Ascii.eqb c "+" then s' else s in
      match ParseUint body with
      | (_, Some ErrSyntax) => (0, Some ErrSyntax)
      | (un, _) =>
          if negb neg && (maxInt <? un) then (maxInt, Some ErrRange)
          else if neg && (maxInt + 1 <? un) then (minInt, Some ErrRange)
          else (if neg then - un else un, None)
      end
  end.

End Strconv.

(** ** Advisory ids *)

Definition firstOracle5ELSA : Z := 20070057.
Definition ovalURI : string := "https://linux.oracle.com/oval/".
Definition elsaFilePrefix : string := "com.oracle.elsa-".
Definition updaterFlag : string := "oracleUpdater".

(** The body of the loop [for i := range lstr] of [compareELSA]: [lrest]
    and [rrest] are [lstr[i:]] and [rstr[i:]], so [i >= len(rstr)] reads
    [rrest] is empty.  [None] is the loop running to its end. *)
Fixpoint compareELSA_loop (lrest rrest : string) : option Z :=
  match lrest with
  | EmptyString => None
  | String lc lrest' =>
      match rrest with
      | EmptyString => Some 1
      | String rc rrest' =>
          let ldigit := fst (Strconv.Atoi (String lc EmptyString)) in
          let rdigit := fst (Strconv.Atoi (String rc EmptyString)) in
          if ldigit >? rdigit then Some 1
          else if ldigit <? rdigit then Some (-1)
          else compareELSA_loop lrest' rrest'
      end
  end.

Definition compareELSA (left right : Z) : Z :=
  if right =? left then 0
  else
    let lstr := Strconv.Itoa left in
    let rstr := Strconv.Itoa right in
    match compareELSA_loop lstr rstr with
    | Some r => r
    | None => Strings.len lstr - Strings.len rstr
    end.

(** ** The decoded OVAL document *)

(** [reference] and [cve] both have a field [ID] in the source; the one
    of [reference], which the package never reads, is [RefID] here. *)
Record reference : Type := {
  Source : string;
  URI : string;
  RefID : string
}.

Record cve : Type := {
  Impact : string;
  Href : string;
  ID : string
}.

Record criterion : Type := {
  Comment : string
}.

#[warnings="-register-all"]
Inductive criteria : Type := mkCriteria {
  Operator : string;
  Criterias : list criteria;
  Criterions : list criterion
}.

Record definition : Type := {
  Title : string;
  Description : string;
  References : list reference;
  Criteria : criteria;
  Severity : string;
  CVEs : list cve
}.

Record oval : Type := {
  Definitions : list definition
}.

(** ** Package [database]: the records the updater fills in *)

Module database.

Inductive Severity : Type :=
| UnknownSeverity
| NegligibleSeverity
| LowSeverity
| MediumSeverity
| HighSeverity
| CriticalSeverity
| Defcon1Severity.

Module Namespace.
Record t : Type := { Name : string; VersionFormat : string }.
Definition zero : t := {| Name := ""; VersionFormat := "" |}.
End Namespace.

Module AffectedFeature.
Record t : Type := {
  FeatureType : string;
  Namespace : Namespace.t;
  FeatureName : string;
  AffectedVersion : string;
  FixedInVersion : string
}.
Definition zero : t :=
  {| FeatureType := ""; Namespace := Namespace.zero; FeatureName := "";
     AffectedVersion := ""; FixedInVersion := "" |}.
Definition setFeatureType (v : string) (f : t) : t :=
  {| FeatureType := v; Namespace := Namespace f;
     FeatureName := FeatureName f; AffectedVersion := AffectedVersion f;
     FixedInVersion := FixedInVersion f |}.
Definition setNamespace (v : Namespace.t) (f : t) : t :=
  {| FeatureType := FeatureType f; Namespace := v;
     FeatureName := FeatureName f; AffectedVersion := AffectedVersion f;
     FixedInVersion := FixedInVersion f |}.
Definition setFeatureName (v : string) (f : t) : t :=
  {| FeatureType := FeatureType f; Namespace := Namespace f;
     FeatureName := v; AffectedVersion := AffectedVersion f;
     FixedInVersion := FixedInVersion f |}.
Definition setAffectedVersion (v : string) (f : t) : t :=
  {| FeatureType := FeatureType f; Namespace := Namespace f;
     FeatureName := FeatureName f; AffectedVersion := v;
     FixedInVersion := FixedInVersion f |}.
Definition setFixedInVersion (v : string) (f : t) : t :=
  {| FeatureType := FeatureType f; Namespace := Namespace f;
     FeatureName := FeatureName f; AffectedVersion := AffectedVersion f;
     FixedInVersion := v |}.
End AffectedFeature.

Module Vulnerability.
Record t : Type := {
  Name : string;
  Link : string;
  Severity : Severity;
  Description : string
}.
End Vulnerability.

Module VulnerabilityWithAffected.
Record t : Type := {
  Vulnerability : Vulnerability.t;
  Affected : list AffectedFeature.t
}.
End VulnerabilityWithAffected.

End database.

Module commonerr.
Inductive error : Type :=
| ErrCouldNotDownload
| ErrCouldNotParse
| ErrOther (msg : string).
End commonerr.

Module vulnsrc.
Record UpdateResponse : Type := {
  Flags : gmap string string;
  Notes : list string;
  Vulnerabilities : list database.VulnerabilityWithAffected.t
}.
Definition zero : UpdateResponse :=
  {| Flags := ∅; Notes := []; Vulnerabilities := [] |}.
End vulnsrc.

(** ** What the package calls but does not define

    The version grammar and its constants ([versionfmt], [rpm]), the
    key-value store ([database]), the HTTP client ([httputil]), the line
    scanner over a response body ([bufio]), the compiled [elsaRegexp] and
    the XML decoder are supplied from outside the package.  [None] for a
    fetch or a decoding stands for a non-nil [err]. *)

Class Collaborators : Type := {
  Valid : string -> string -> bool;
  MaxVersion : string;
  ParserName : string;
  BinaryPackage : string;
  Datastore : Type;
  FindKeyValueAndRollback :
    Datastore -> string -> string * bool * option commonerr.error;
  Response : Type;
  GetWithUserAgent : string -> option Response;
  Status2xx : Response -> bool;
  Body : Response -> string;
  scanLines : string -> list string;
  FindStringSubmatch : string -> list string;
  xmlDecode : string -> option oval
}.

(** ** The criteria normalizer *)

Definition ignoredCriterions : list string :=
  [" is signed with the Oracle Linux"; ".ksplice1."].

(** The inner loop of [getCriterions]: is [c] to be ignored? *)
Definition ignored (c : criterion) : bool :=
  existsb (fun ignoredItem => Strings.Contains (Comment c) ignoredItem)
          ignoredCriterions.

Definition getCriterions (node : criteria) : list (list criterion) :=
  let criterions := List.filter (fun c => negb (ignored c)) (Criterions node) in
  if String.eqb (Operator node) "AND" then [criterions]
  else if String.eqb (Operator node) "OR" then
    List.map (fun c => [c]) criterions
  else [].

(** One round of the [AND] composition: every possibility so far,
    followed by every possibility of the next group. *)
Definition composeGroup (possibilities possibilityGroup : list (list criterion))
  : list (list criterion) :=
  List.flat_map
    (fun possibility =>
       List.map (fun possibilityInGroup => possibility ++ possibilityInGroup)
                possibilityGroup)
    possibilities.

Fixpoint getPossibilities (node : criteria) : list (list criterion) :=
  match Criterias node with
  | [] => getCriterions node
  | _ :: _ =>
      let possibilitiesToCompose :=
        List.map getPossibilities (Criterias node)
        ++ (if (0 <? length (Criterions node))%nat
            then [getCriterions node] else []) in
      if String.eqb (Operator node) "AND" then
        match possibilitiesToCompose with
        | [] => []
        | first :: others => List.fold_left composeGroup others first
        end
      else if String.eqb (Operator node) "OR" then
        List.concat possibilitiesToCompose
      else []
  end.

(** ** The feature extractor, the synthesizer and the batch driver *)

Section Updater.

Context {ext : Collaborators}.

Definition affectedType : string := BinaryPackage.

(** The body of the loop over the criterions of one possibility in
    [toFeatures]; the state is the pair of [featureVersion] and
    [osVersion].  The error of [Atoi] is only logged. *)
Definition scanCriterion (st : database.AffectedFeature.t * Z) (c : criterion)
  : exec (database.AffectedFeature.t * Z) :=
  let '(featureVersion, osVersion) := st in
  if Strings.Contains (Comment c) " is installed" then
    let prefixLen := Strings.len "Oracle Linux " in
    rest ← Strings.sliceFrom (Comment c) prefixLen;
    token ← Strings.slice (Comment c) prefixLen
              (prefixLen + Strings.Index rest " ");
    Done (featureVersion, fst (Strconv.Atoi (Strings.TrimSpace token)))
  else if Strings.Contains (Comment c) " is earlier than " then
    let prefixLen := Strings.len " is earlier than " in
    nm ← Strings.sliceTo (Comment c)
           (Strings.Index (Comment c) " is earlier than ");
    let featureVersion :=
      database.AffectedFeature.setFeatureType affectedType
        (database.AffectedFeature.setFeatureName (Strings.TrimSpace nm)
           featureVersion) in
    version ← Strings.sliceFrom (Comment c)
                (Strings.Index (Comment c) " is earlier than " + prefixLen);
    if Valid ParserName version then
      let featureVersion :=
        database.AffectedFeature.setAffectedVersion version featureVersion in
      if negb (String.eqb version MaxVersion)
      then Done (database.AffectedFeature.setFixedInVersion version
                   featureVersion, osVersion)
      else Done (featureVersion, osVersion)
    else Done (featureVersion, osVersion)
  else Done (featureVersion, osVersion).

(** What [toFeatures] does once the criterions of a possibility are
    scanned: name the namespace, then keep the feature or drop it. *)
Definition finishFeature (featureVersion : database.AffectedFeature.t)
  (osVersion : Z) : database.AffectedFeature.t :=
  database.AffectedFeature.setNamespace
    {| database.Namespace.Name := "oracle" +:+ ":" +:+ Strconv.Itoa osVersion;
       database.Namespace.VersionFormat := ParserName |}
    featureVersion.

Definition resolved (featureVersion : database.AffectedFeature.t) : bool :=
  negb (String.eqb
          (database.Namespace.Name
             (database.AffectedFeature.Namespace featureVersion)) "")
  && negb (String.eqb (database.AffectedFeature.FeatureName featureVersion) "")
  && negb (String.eqb (database.AffectedFeature.AffectedVersion featureVersion) "")
  && negb (String.eqb (database.AffectedFeature.FixedInVersion featureVersion) "").

Definition featureKey (featureVersion : database.AffectedFeature.t) : string :=
  database.Namespace.Name (database.AffectedFeature.Namespace featureVersion)
  +:+ ":" +:+ database.AffectedFeature.FeatureName featureVersion.

(** The body of the loop over the possibilities in [toFeatures]. *)
Definition addPossibility
  (featureVersionParameters : gmap string database.AffectedFeature.t)
  (criterions : list criterion) : exec (gmap string database.AffectedFeature.t) :=
  st ← forRange scanCriterion criterions (database.AffectedFeature.zero, 0);
  let featureVersion := finishFeature (fst st) (snd st) in
  if resolved featureVersion
  then Done (<[featureKey featureVersion := featureVersion]>
               featureVersionParameters)
  else Done featureVersionParameters.

Definition toFeatures (criteria : criteria)
  : exec (list database.AffectedFeature.t) :=
  featureVersionParameters ←
    forRange addPossibility (getPossibilities criteria) ∅;
  Done (map_to_list featureVersionParameters).*2.

Definition description (def : definition) : string :=
  let desc := Strings.ReplaceAll (Description def)
                (Strings.bytes [10; 10; 10]%nat) " " in
  let desc := Strings.ReplaceAll desc (Strings.bytes [10; 10]%nat) " " in
  Strings.ReplaceAll desc (Strings.bytes [10]%nat) " ".

Definition name (def : definition) : exec string :=
  prefix ← Strings.sliceTo (Title def) (Strings.Index (Title def) ": ");
  Done (Strings.TrimSpace prefix).

Fixpoint link_loop (refs : list reference) : string :=
  match refs with
  | [] => ""
  | reference :: refs' =>
      if String.eqb (Source reference) "elsa" then URI reference
      else link_loop refs'
  end.

Definition link (def : definition) : string := link_loop (References def).

Definition severity (sev : string) : database.Severity :=
  let l := Strings.ToLower sev in
  if String.eqb l "n/a" then database.NegligibleSeverity
  else if String.eqb l "low" then database.LowSeverity
  else if String.eqb l "moderate" then database.MediumSeverity
  else if String.eqb l "important" || String.eqb l "high" then database.HighSeverity
  else if String.eqb l "critical" then database.CriticalSeverity
  else database.UnknownSeverity.

(** The body of the loop over [definition.CVEs] in [parseELSA]: the
    state is [vulnerability] and the slice [vulnerabilities]. *)
Definition perCVE (def : definition)
  (st : database.VulnerabilityWithAffected.t
        * list database.VulnerabilityWithAffected.t)
  (currentCVE : cve)
  : database.VulnerabilityWithAffected.t
    * list database.VulnerabilityWithAffected.t :=
  let '(vulnerability, vulnerabilities) := st in
  let v := database.VulnerabilityWithAffected.Vulnerability vulnerability in
  let vulnerability :=
    {| database.VulnerabilityWithAffected.Vulnerability :=
         {| database.Vulnerability.Name := ID currentCVE;
            database.Vulnerability.Link := Href currentCVE;
            database.Vulnerability.Severity :=
              if negb (String.eqb (Impact currentCVE) "")
              then severity (Impact currentCVE)
              else severity (Severity def);
            database.Vulnerability.Description :=
              database.Vulnerability.Description v |};
       database.VulnerabilityWithAffected.Affected :=
         database.VulnerabilityWithAffected.Affected vulnerability |} in
  (vulnerability, vulnerabilities ++ [vulnerability]).

(** The body of the loop over [ov.Definitions] in [parseELSA]. *)
Definition perDefinition
  (vulnerabilities : list database.VulnerabilityWithAffected.t) (def : definition)
  : exec (list database.VulnerabilityWithAffected.t) :=
  pkgs ← toFeatures (Criteria def);
  if (0 <? length pkgs)%nat then
    nm ← name def;
    let vulnerability :=
      {| database.VulnerabilityWithAffected.Vulnerability :=
           {| database.Vulnerability.Name := nm;
              database.Vulnerability.Link := link def;
              database.Vulnerability.Severity := severity (Severity def);
              database.Vulnerability.Description := description def |};
         database.VulnerabilityWithAffected.Affected := pkgs |} in
    if (length (CVEs def) =? 0)%nat
    then Done (vulnerabilities ++ [vulnerability])
    else Done (snd (List.fold_left (perCVE def) (CVEs def)
                      (vulnerability, vulnerabilities)))
  else Done vulnerabilities.

Definition parseELSA (ovalReader : string)
  : exec (list database.VulnerabilityWithAffected.t * option commonerr.error) :=
  match xmlDecode ovalReader with
  | None => Done ([], Some commonerr.ErrCouldNotParse)
  | Some ov =>
      vulnerabilities ← forRange perDefinition (Definitions ov) [];
      Done (vulnerabilities, None)
  end.

Definition largest (list : list Z) : Z :=
  List.fold_left (fun largest element =>
                    if element >? largest then element else largest)
                 list 0.

(** Lines 135-142 of [Update]: the first ELSA to manage, from the stored
    flag ([ok] tells whether the key was found). *)
Definition firstELSA (flagValue : string) (ok : bool) : Z :=
  let flagValue := if ok then flagValue else "" in
  let '(firstELSA, err) := Strconv.Atoi flagValue in
  if (firstELSA =? 0) || bool_decide (err ≠ None)
  then firstOracle5ELSA else firstELSA.

(** Lines 158-169: the ELSAs of the update list that are to be processed. *)
Definition listELSAs (firstELSA : Z) (lines : list string) : list Z :=
  List.fold_left
    (fun elsaList line =>
       match FindStringSubmatch line with
       | [_; digits] =>
           let elsaNo := fst (Strconv.Atoi digits) in
           if compareELSA elsaNo firstELSA >? 0
           then elsaList ++ [elsaNo] else elsaList
       | _ => elsaList
       end)
    lines [].

Definition appendVulnerabilities (resp : vulnsrc.UpdateResponse)
  (vs : list database.VulnerabilityWithAffected.t) : vulnsrc.UpdateResponse :=
  {| vulnsrc.Flags := vulnsrc.Flags resp;
     vulnsrc.Notes := vulnsrc.Notes resp;
     vulnsrc.Vulnerabilities := vulnsrc.Vulnerabilities resp ++ vs |}.

Definition elsaURL (elsa : Z) : string :=
  ovalURI +:+ elsaFilePrefix +:+ Strconv.Itoa elsa +:+ ".xml".

(** Lines 171-195: download and parse every listed ELSA; the first
    failure returns [resp] as it stands, with the error. *)
Fixpoint fetchELSAs (elsaList : list Z) (resp : vulnsrc.UpdateResponse)
  : exec (vulnsrc.UpdateResponse * option commonerr.error) :=
  match elsaList with
  | [] => Done (resp, None)
  | elsa :: elsaList' =>
      match GetWithUserAgent (elsaURL elsa) with
      | None => Done (resp, Some commonerr.ErrCouldNotDownload)
      | Some r =>
          if negb (Status2xx r)
          then Done (resp, Some commonerr.ErrCouldNotDownload)
          else
            parsed ← parseELSA (Body r);
            match snd parsed with
            | Some err => Done (resp, Some err)
            | None => fetchELSAs elsaList' (appendVulnerabilities resp (fst parsed))
            end
      end
  end.

Definition Update (datastore : Datastore)
  : exec (vulnsrc.UpdateResponse * option commonerr.error) :=
  let resp := vulnsrc.zero in
  let '(flagValue, ok, err) := FindKeyValueAndRollback datastore updaterFlag in
  match err with
  | Some e => Done (resp, Some e)
  | None =>
      let firstELSA := firstELSA flagValue ok in
      match GetWithUserAgent ovalURI with
      | None => Done (resp, Some commonerr.ErrCouldNotDownload)
      | Some r =>
          if negb (Status2xx r)
          then Done (resp, Some commonerr.ErrCouldNotDownload)
          else
            let elsaList := listELSAs firstELSA (scanLines (Body r)) in
            fetched ← fetchELSAs elsaList resp;
            match snd fetched with
            | Some e => Done (fst fetched, Some e)
            | None =>
                let resp := fst fetched in
                if (0 <? length elsaList)%nat
                then Done ({| vulnsrc.Flags :=
                                {[ updaterFlag := Strconv.Itoa (largest elsaList) ]};
                              vulnsrc.Notes := vulnsrc.Notes resp;
                              vulnsrc.Vulnerabilities :=
                                vulnsrc.Vulnerabilities resp |}, None)
                else Done (resp, None)
            end
      end
  end.

End Updater.

(** ** A closed world to run the updater in

    The examples below run the package against simulated collaborators:
    a validator that accepts any non-blank version under the name "rpm"
    (which includes the sentinel), a store held in a map, a web given as
    a table from URLs to status and body, bodies split at line feeds, an
    index whose lines are bare file names, and documents decoded by
    looking them up in a table. *)

Module Sim.

Definition LF : string := Strings.bytes [10]%nat.

Fixpoint splitLines (cur : string) (s : string) : list string :=
  match s with
  | EmptyString => if String.eqb cur "" then [] else [Strings.rev cur]
  | String c s' =>
      if Ascii.eqb c "010" then Strings.rev cur :: splitLines "" s'
      else splitLines (String c cur) s'
  end.

Fixpoint digitsOf (s : string) : string * string :=
  match s with
  | EmptyString => ("", "")
  | String c s' =>
      if Strconv.digitVal c <=? 9
      then (String c (fst (digitsOf s')), snd (digitsOf s'))
      else ("", s)
  end.

Definition submatch (line : string) : list string :=
  if Strings.HasPrefix line elsaFilePrefix then
    let '(digits, rest) :=
      digitsOf (Strings.dropN (String.length elsaFilePrefix) line) in
    if negb (String.eqb digits "") && String.eqb rest ".xml"
    then [line; digits] else []
  else [].

Fixpoint assoc {A : Type} (k : string) (table : list (string * A)) : option A :=
  match table with
  | [] => None
  | (k', v) :: table' => if String.eqb k k' then Some v else assoc k table'
  end.

Definition world (web : list (string * (Z * string)))
  (documents : list (string * oval)) : Collaborators :=
  {| Valid := fun format version =>
       String.eqb format "rpm"
       && negb (String.eqb (Strings.TrimSpace version) "");
     MaxVersion := "#MAXV#";
     ParserName := "rpm";
     BinaryPackage := "binary";
     Datastore := gmap string string;
     FindKeyValueAndRollback := fun datastore key =>
       match datastore !! key with
       | Some v => (v, true, None)
       | None => ("", false, None)
       end;
     Response := Z * string;
     GetWithUserAgent := fun url => assoc url web;
     Status2xx := fun r => fst r / 100 =? 2;
     Body := snd;
     scanLines := splitLines "";
     FindStringSubmatch := submatch;
     xmlDecode := fun reader => assoc reader documents |}.

(** The extractor needs no web and no documents. *)
Definition offline : Collaborators := world [] [].

Definition leaf (comment : string) : criterion := {| Comment := comment |}.
Definition AND (subs : list criteria) (leaves : list string) : criteria :=
  mkCriteria "AND" subs (List.map leaf leaves).
Definition OR (subs : list criteria) (leaves : list string) : criteria :=
  mkCriteria "OR" subs (List.map leaf leaves).

(** Release 7, package foo fixed in 0:1.0-1.el7. *)
Definition fooOn7 : criteria :=
  AND [] ["Oracle Linux 7 is installed"; "foo is earlier than 0:1.0-1.el7"].

Definition advisory (title description : string) (criteria : criteria)
  : definition :=
  {| Title := title; Description := description; References := [];
     Criteria := criteria; Severity := "Moderate"; CVEs := [] |}.

(** A definition whose title has no ": ". *)
Definition untitled : definition := advisory "ELSA-2017-1234 untitled" "" fooOn7.

Definition feature (namespace name affected fixed : string)
  : database.AffectedFeature.t :=
  {| database.AffectedFeature.FeatureType := "binary";
     database.AffectedFeature.Namespace :=
       {| database.Namespace.Name := namespace;
          database.Namespace.VersionFormat := "rpm" |};
     database.AffectedFeature.FeatureName := name;
     database.AffectedFeature.AffectedVersion := affected;
     database.AffectedFeature.FixedInVersion := fixed |}.

Definition vulnerability (name : string) (severity : database.Severity)
  (description : string) (affected : list database.AffectedFeature.t)
  : database.VulnerabilityWithAffected.t :=
  {| database.VulnerabilityWithAffected.Vulnerability :=
       {| database.Vulnerability.Name := name;
          database.Vulnerability.Link := "";
          database.Vulnerability.Severity := severity;
          database.Vulnerability.Description := description |};
     database.VulnerabilityWithAffected.Affected := affected |}.

(** A feed whose update list names the advisories 5, 9 and 7, in this
    order; 5 and 9 can be downloaded, 7 cannot. *)
Definition feed : Collaborators :=
  world
    [ (ovalURI, (200, "com.oracle.elsa-5.xml" +:+ LF
                      +:+ "com.oracle.elsa-9.xml" +:+ LF
                      +:+ "com.oracle.elsa-7.xml" +:+ LF));
      (elsaURL 5, (200, "five"));
      (elsaURL 9, (200, "nine")) ]
    [ ("five", {| Definitions := [advisory "ELSA-5: foo update" "" fooOn7] |});
      ("nine", {| Definitions := [advisory "ELSA-9: foo update" "" fooOn7] |}) ].

(** The store with the cursor at 3. *)
Definition store : gmap string string := {[ updaterFlag := "3" ]}.

Definition fooFixed : database.AffectedFeature.t :=
  feature "oracle:7" "foo" "0:1.0-1.el7" "0:1.0-1.el7".

Definition five : database.VulnerabilityWithAffected.t :=
  vulnerability "ELSA-5" database.MediumSeverity "" [fooFixed].

Definition nine : database.VulnerabilityWithAffected.t :=
  vulnerability "ELSA-9" database.MediumSeverity "" [fooFixed].

Definition seven : database.VulnerabilityWithAffected.t :=
  vulnerability "ELSA-7" database.MediumSeverity "" [fooFixed].

(** The same update list, with all three advisories available. *)
Definition fullFeed : Collaborators :=
  world
    [ (ovalURI, (200, "com.oracle.elsa-5.xml" +:+ LF
                      +:+ "com.oracle.elsa-9.xml" +:+ LF
                      +:+ "com.oracle.elsa-7.xml" +:+ LF));
      (elsaURL 5, (200, "five"));
      (elsaURL 9, (200, "nine"));
      (elsaURL 7, (200, "seven")) ]
    [ ("five", {| Definitions := [advisory "ELSA-5: foo update" "" fooOn7] |});
      ("nine", {| Definitions := [advisory "ELSA-9: foo update" "" fooOn7] |});
      ("seven", {| Definitions := [advisory "ELSA-7: foo update" "" fooOn7] |}) ].

End Sim.

(** ** Vocabulary of the statements *)

(** The number a string of digits denotes, most significant digit first. *)
Fixpoint decimalValue (s : string) : Z :=
  match s with
  | EmptyString => 0
  | String c s' => Strconv.digitVal c * 10 ^ Strings.len s' + decimalValue s'
  end.

Fixpoint allDigits (s : string) : bool :=
  match s with
  | EmptyString => true
  | String c s' => (Strconv.digitVal c <=? 9) && allDigits s'
  end.

(** A decimal numeral: an optional sign, then at least one digit. *)
Definition isNumeral (s : string) : bool :=
  match s with
  | EmptyString => false
  | String c s' =>
      let body := if Ascii.eqb c "-" || Ascii.eqb c "+" then s' else s in
      negb (String.eqb body "") && allDigits body
  end.

(** The criterion [c] passes the filter of [getCriterions]. *)
Definition kept (c : criterion) : Prop := ignored c = false.

(** Whether the tree [node] holds when [rho] tells which criterions do:
    an AND node needs all its children and all its kept leaves, an OR
    node one of them, and a node with another operator never holds. *)
Fixpoint holds (rho : criterion -> bool) (node : criteria) : bool :=
  let leaves := List.filter (fun c => negb (ignored c)) (Criterions node) in
  if String.eqb (Operator node) "AND" then
    forallb (holds rho) (Criterias node) && forallb rho leaves
  else if String.eqb (Operator node) "OR" then
    existsb (holds rho) (Criterias node) || existsb rho leaves
  else false.

(** Some possibility has all its criterions hold. *)
Definition satisfiable (rho : criterion -> bool)
  (possibilities : list (list criterion)) : bool :=
  existsb (forallb rho) possibilities.

(** A run of [n] line feeds. *)
Fixpoint lineFeeds (n : nat) : string :=
  match n with
  | O => EmptyString
  | S n' => String "010" (lineFeeds n')
  end.

Fixpoint noLineFeed (s : string) : bool :=
  match s with
  | EmptyString => true
  | String c s' => negb (Ascii.eqb c "010") && noLineFeed s'
  end.

(** A text given as pieces free of line feeds, each followed by a run of
    line feeds whose length is the second component, and a last piece;
    [sep] says what is written for a run. *)
Fixpoint pieces (sep : nat -> string) (segs : list (string * nat)) (last : string)
  : string :=
  match segs with
  | [] => last
  | (w, n) :: segs' => w +:+ sep n +:+ pieces sep segs' last
  end.

(** The runs are real runs of one to three line feeds: the pieces hold no
    line feed, and no piece after the first is empty, except possibly the
    last one. *)
Fixpoint shortRuns (segs : list (string * nat)) (last : string) : Prop :=
  match segs with
  | [] => noLineFeed last = true
  | (w, n) :: segs' =>
      noLineFeed w = true
      /\ (1 <= n <= 3)%nat
      /\ match segs' with
         | [] => True
         | (w', _) :: _ => w' <> ""
         end
      /\ shortRuns segs' last
  end.

(** The text after a run does not begin with a line feed. *)
Definition startsClean (t : string) : Prop :=
  match t with
  | EmptyString => True
  | String c _ => Ascii.eqb c "010" = false
  end.

(** What stands for a run of [n] line feeds after the first and after
    the second pass of [description]. *)
Definition afterTriples (n : nat) : string :=
  if (n =? 3)%nat then " " else lineFeeds n.

Definition afterPairs (n : nat) : string :=
  if (n =? 1)%nat then lineFeeds 1 else " ".

(** The criterions of a tree, at any depth. *)
Fixpoint leavesOf (node : criteria) : list criterion :=
  Criterions node ++ List.flat_map leavesOf (Criterias node).

(** Every criterion of every possibility in [groups] satisfies [P]. *)
Definition within (P : criterion -> Prop) (groups : list (list criterion))
  : Prop :=
  Forall (Forall P) groups.

(** The release of an installed-release comment can be cut out: the
    comment has a space after its first thirteen bytes. *)
Definition spaced (c : criterion) : bool :=
  negb (Strings.Contains (Comment c) " is installed")
  || match Strings.sliceFrom (Comment c) (Strings.len "Oracle Linux ") with
     | Done rest => Strings.Contains rest " "
     | Panic => false
     end.

Section Vocabulary.

Context {ext : Collaborators}.

(** [id] is the number of an advisory file named on some line of the
    update list. *)
Definition listed (lines : list string) (id : Z) : Prop :=
  exists line whole digits,
    In line lines
    /\ FindStringSubmatch line = [whole; digits]
    /\ id = fst (Strconv.Atoi digits).

(** The criterion [c] bounds a package by [version]: its comment is not
    an installed-release one, and [version] is what follows the first
    " is earlier than ". *)
Definition boundsVersion (c : criterion) (version : string) : Prop :=
  Strings.Contains (Comment c) " is installed" = false
  /\ Strings.Contains (Comment c) " is earlier than " = true
  /\ Strings.sliceFrom (Comment c)
       (Strings.Index (Comment c) " is earlier than "
        + Strings.len " is earlier than ") = Done version.

(** The advisory [elsa] is downloaded and parsed into [vs]. *)
Definition fetched (elsa : Z) (vs : list database.VulnerabilityWithAffected.t)
  : Prop :=
  exists r, GetWithUserAgent (elsaURL elsa) = Some r
            /\ Status2xx r = true
            /\ parseELSA (Body r) = Done (vs, None).

(** The download of the advisory [elsa] fails, answers with another
    status than 2xx, or brings a document that does not decode. *)
Definition fetchFails (elsa : Z) (err : commonerr.error) : Prop :=
  (GetWithUserAgent (elsaURL elsa) = None
   /\ err = commonerr.ErrCouldNotDownload)
  \/ (exists r, GetWithUserAgent (elsaURL elsa) = Some r
                /\ Status2xx r = false
                /\ err = commonerr.ErrCouldNotDownload)
  \/ (exists r, GetWithUserAgent (elsaURL elsa) = Some r
                /\ Status2xx r = true
                /\ xmlDecode (Body r) = None
                /\ err = commonerr.ErrCouldNotParse).

(** The scan of [possibility] gives the feature [f], and [f] passes the
    test that [toFeatures] makes before it stores a feature. *)
Definition yields (possibility : list criterion)
  (f : database.AffectedFeature.t) : Prop :=
  exists st,
    forRange scanCriterion possibility (database.AffectedFeature.zero, 0)
    = Done st
    /\ f = finishFeature (fst st) (snd st)
    /\ resolved f = true.

(** The record of an advisory that names no CVE. *)
Definition elsaRecord (def : definition) (nm : string)
  (pkgs : list database.AffectedFeature.t)
  : database.VulnerabilityWithAffected.t :=
  {| database.VulnerabilityWithAffected.Vulnerability :=
       {| database.Vulnerability.Name := nm;
          database.Vulnerability.Link := link def;
          database.Vulnerability.Severity := severity (Severity def);
          database.Vulnerability.Description := description def |};
     database.VulnerabilityWithAffected.Affected := pkgs |}.

(** The record of one CVE of an advisory. *)
Definition cveRecord (def : definition)
  (pkgs : list database.AffectedFeature.t) (currentCVE : cve)
  : database.VulnerabilityWithAffected.t :=
  {| database.VulnerabilityWithAffected.Vulnerability :=
       {| database.Vulnerability.Name := ID currentCVE;
          database.Vulnerability.Link := Href currentCVE;
          database.Vulnerability.Severity :=
            if negb (String.eqb (Impact currentCVE) "")
            then severity (Impact currentCVE)
            else severity (Severity def);
          database.Vulnerability.Description := description def |};
     database.VulnerabilityWithAffected.Affected := pkgs |}.

(** The records of the definition [def] are [group]: none if it has no
    feature, one for each of its CVEs if it has some, and else one under
    the name of the advisory. *)
Definition recorded (def : definition)
  (group : list database.VulnerabilityWithAffected.t) : Prop :=
  exists pkgs,
    toFeatures (Criteria def) = Done pkgs
    /\ match pkgs, CVEs def with
       | [], _ => group = []
       | _ :: _, [] => exists nm, name def = Done nm
                                  /\ group = [elsaRecord def nm pkgs]
       | _ :: _, cves => (exists nm, name def = Done nm)
                         /\ group = List.map (cveRecord def pkgs) cves
       end.

End Vocabulary.

(** ** Proof automation *)

(** Settles a statement about a run of [n] line feeds followed by [t], by
    the three lengths the run may have and the two shapes of [t]. *)
Ltac by_run_length n t Ht :=
  let Hcases := fresh "Hcases" in
  assert (Hcases : n = 1%nat \/ n = 2%nat \/ n = 3%nat) by lia;
  destruct Hcases as [-> | [-> | ->]];
  destruct t; cbn in Ht |- *; rewrite ?Ht; reflexivity.

#[local] Arguments String.append : simpl nomatch.

(** * Properties of the updater *)

(** ** Loops that may panic *)

Section Loops.

Context {A S : Type} (body : S -> A -> exec S).

(** An element on which the body always panics makes the loop panic. *)
Lemma forRange_panics x xs :
  In x xs -> (forall st, body st x = Panic) ->
  forall st, forRange body xs st = Panic.
Proof.
  intros Hin Hx. induction xs as [| y xs IH]; [destruct Hin |].
  intros st. cbn [forRange].
  destruct Hin as [-> | Hin].
  - now rewrite Hx.
  - destruct (body st y) as [st1 |]; cbn; [now apply IH | reflexivity].
Qed.

(** A property the body preserves holds when the loop is done. *)
Lemma forRange_invariant (P : S -> Prop) xs :
  (forall st x st', In x xs -> P st -> body st x = Done st' -> P st') ->
  forall st st', P st -> forRange body xs st = Done st' -> P st'.
Proof.
  induction xs as [| x xs IH]; intros Hstep st st' Hst Hrun;
    cbn [forRange] in Hrun.
  - now injection Hrun as <-.
  - destruct (body st x) as [st1 |] eqn:Hb; cbn in Hrun; [| discriminate].
    apply (IH (fun s y s' Hy => Hstep s y s' (or_intror Hy)) st1); [| exact Hrun].
    apply (Hstep st x st1); [now left | exact Hst | exact Hb].
Qed.

End Loops.

(** ** Substrings *)

Section Substrings.

Import Strings.

Lemma HasPrefix_len s : forall prefix,
  HasPrefix s prefix = true -> len prefix <= len s.
Proof.
  induction s as [| c s IH]; intros [| p prefix]; cbn [HasPrefix];
    intros H; try discriminate H; unfold len in *; cbn [String.length];
    try lia.
  apply andb_prop in H as [_ H]. specialize (IH _ H). lia.
Qed.

(** [Index] is [-1] or the offset of an occurrence that fits in [s]. *)
Lemma Index_range substr s :
  Index s substr = -1
  \/ (0 <= Index s substr /\ Index s substr + len substr <= len s).
Proof.
  induction s as [| c s IH].
  - cbn [Index]. destruct (HasPrefix "" substr) eqn:Hp; [| now left].
    right. apply HasPrefix_len in Hp. lia.
  - cbn [Index]. destruct (HasPrefix (String c s) substr) eqn:Hp.
    + right. apply HasPrefix_len in Hp. lia.
    + destruct (Z.ltb_spec (Index s substr) 0) as [Hneg | Hpos]; [now left |].
      right. destruct IH as [IH | IH]; [lia |].
      unfold len in *. cbn [String.length]. lia.
Qed.

Lemma Contains_false s substr :
  Contains s substr = false -> Index s substr = -1.
Proof.
  unfold Contains. intros H. apply Z.leb_gt in H.
  destruct (Index_range substr s); lia.
Qed.

Lemma Contains_true s substr :
  Contains s substr = true ->
  0 <= Index s substr /\ Index s substr + len substr <= len s.
Proof.
  unfold Contains. intros H. apply Z.leb_le in H.
  destruct (Index_range substr s); lia.
Qed.

End Substrings.


(** ** Decimal numerals *)

Section Numerals.

Import Strconv.

Lemma len_String c s : Strings.len (String c s) = Strings.len s + 1.
Proof. unfold Strings.len. cbn [String.length]. lia. Qed.

Lemma len_nonneg s : 0 <= Strings.len s.
Proof. unfold Strings.len. lia. Qed.

Lemma digitVal_nonneg c : 0 <= digitVal c.
Proof. unfold digitVal. apply Z.mod_pos_bound. lia. Qed.

Lemma digitVal_digitChar d : 0 <= d <= 9 -> digitVal (digitChar d) = d.
Proof.
  intros Hd.
  assert (Hcases : d = 0 \/ d = 1 \/ d = 2 \/ d = 3 \/ d = 4 \/ d = 5
                   \/ d = 6 \/ d = 7 \/ d = 8 \/ d = 9) by lia.
  repeat (destruct Hcases as [-> | Hcases]; [reflexivity |]).
  subst d. reflexivity.
Qed.

Lemma decimalValue_bounds s :
  allDigits s = true -> 0 <= decimalValue s < 10 ^ Strings.len s.
Proof.
  induction s as [| c s IH]; cbn [allDigits decimalValue].
  - intros _. unfold Strings.len. cbn. lia.
  - intros [Hc Hs]%andb_prop. apply Z.leb_le in Hc.
    specialize (IH Hs). rewrite len_String.
    pose proof (digitVal_nonneg c). pose proof (len_nonneg s).
    rewrite Z.pow_add_r by lia. nia.
Qed.

Lemma append_String_assoc p c s : (p +:+ String c "") +:+ s = p +:+ String c s.
Proof.
  induction p as [| a p IH]; cbn [String.append]; [reflexivity |].
  f_equal. exact IH.
Qed.

Lemma len_snoc p c : Strings.len (p +:+ String c "") = Strings.len p + 1.
Proof.
  induction p as [| a p IH]; [reflexivity |].
  cbn [String.append]. rewrite !len_String, IH. reflexivity.
Qed.

Lemma allDigits_snoc p c :
  allDigits (p +:+ String c "") = allDigits p && (digitVal c <=? 9).
Proof.
  induction p as [| a p IH]; cbn [String.append allDigits].
  - now rewrite andb_true_r.
  - rewrite IH. now rewrite andb_assoc.
Qed.

Lemma decimalValue_snoc p c :
  decimalValue (p +:+ String c "") = decimalValue p * 10 + digitVal c.
Proof.
  induction p as [| a p IH]; cbn [String.append decimalValue].
  - unfold Strings.len. cbn. lia.
  - rewrite IH, len_snoc. pose proof (len_nonneg p).
    rewrite Z.pow_add_r by lia. lia.
Qed.

(** [formatBits] writes the numeral of [u] in front of [acc]. *)
Lemma formatBits_spec fuel : forall u acc,
  0 <= u < 10 ^ Z.of_nat (S fuel) ->
  exists p, formatBits (S fuel) u acc = p +:+ acc
            /\ allDigits p = true /\ decimalValue p = u /\ p <> "".
Proof.
  induction fuel as [| fuel IH]; intros u acc Hu.
  - exists (String (digitChar u) "").
    assert (Hq : u / 10 = 0) by (apply Z.div_small; lia).
    assert (Hm : u mod 10 = u) by (apply Z.mod_small; lia).
    cbn [formatBits]. rewrite Hq, Hm. cbn [Z.eqb String.append].
    cbn [allDigits decimalValue]. rewrite digitVal_digitChar by lia.
    repeat split; [| unfold Strings.len; cbn; lia | discriminate].
    rewrite andb_true_r. apply Z.leb_le. lia.
  - change (formatBits (S (S fuel)) u acc) with
      (let acc' := String (digitChar (u mod 10)) acc in
       if u / 10 =? 0 then acc' else formatBits (S fuel) (u / 10) acc').
    cbn zeta.
    pose proof (Z.mod_pos_bound u 10 ltac:(lia)) as Hm.
    pose proof (Z.div_mod u 10 ltac:(lia)) as Hdm.
    destruct (Z.eqb_spec (u / 10) 0) as [Hq | Hq].
    + exists (String (digitChar (u mod 10)) "").
      cbn [String.append allDigits decimalValue].
      rewrite digitVal_digitChar by lia.
      repeat split; [| unfold Strings.len; cbn; lia | discriminate].
      rewrite andb_true_r. apply Z.leb_le. lia.
    + assert (Hu' : 0 <= u / 10 < 10 ^ Z.of_nat (S fuel)).
      { split; [apply Z.div_pos; lia |].
        apply Z.div_lt_upper_bound; [lia |].
        replace (Z.of_nat (S (S fuel))) with (Z.of_nat (S fuel) + 1) in Hu by lia.
        rewrite Z.pow_add_r in Hu by lia. lia. }
      destruct (IH (u / 10) (String (digitChar (u mod 10)) acc) Hu')
        as (p & Hp & Hd & Hv & Hne).
      exists (p +:+ String (digitChar (u mod 10)) "").
      rewrite Hp, append_String_assoc, allDigits_snoc, decimalValue_snoc.
      rewrite Hd, Hv, digitVal_digitChar by lia.
      repeat split; [| lia |].
      * apply Z.leb_le. lia.
      * destruct p; [congruence | discriminate].
Qed.

Lemma Itoa_numeral n :
  0 <= n <= maxInt ->
  allDigits (Itoa n) = true /\ decimalValue (Itoa n) = n /\ Itoa n <> "".
Proof.
  intros Hn. unfold Itoa.
  destruct (Z.ltb_spec n 0) as [? | _]; [lia |].
  destruct (formatBits_spec 19 n "") as (p & Hp & Hd & Hv & Hne).
  { unfold maxInt in Hn. split; [lia |].
    eapply Z.le_lt_trans; [apply Hn |]. reflexivity. }
  change (S 19) with 20%nat in Hp. rewrite Hp.
  assert (Hnil : forall s, s +:+ "" = s).
  { induction s as [| a s IH]; cbn [String.append]; [reflexivity |].
    f_equal. exact IH. }
  rewrite Hnil. auto.
Qed.

Lemma Atoi_digit c :
  digitVal c <= 9 -> fst (Atoi (String c "")) = digitVal c.
Proof.
  intros Hc. unfold Atoi.
  destruct (Ascii.eqb_spec c "-") as [-> | _]; [vm_compute in Hc; congruence |].
  destruct (Ascii.eqb_spec c "+") as [-> | _]; [vm_compute in Hc; congruence |].
  cbn [orb negb andb]. unfold ParseUint. cbn [parseDigits].
  pose proof (digitVal_nonneg c) as H0.
  destruct (Z.ltb_spec 9 (digitVal c)) as [? | _]; [lia |].
  destruct (Z.ltb_spec maxUint64 (0 * 10 + digitVal c)) as [Hbig | _].
  { unfold maxUint64 in Hbig. lia. }
  destruct (Z.ltb_spec maxInt (0 * 10 + digitVal c)) as [Hbig | _].
  { unfold maxInt in Hbig. lia. }
  cbn. lia.
Qed.

End Numerals.

(** ** The ordering of advisory ids *)

Section Ordering.

Import Strconv.

(** On two numerals of the same length the loop of [compareELSA] stops
    at the leftmost differing digit, which settles the order of the
    numbers; it runs to its end only when the numbers are equal. *)
Lemma compareELSA_loop_same_length l : forall r,
  String.length l = String.length r ->
  allDigits l = true -> allDigits r = true ->
  match compareELSA_loop l r with
  | None => decimalValue l = decimalValue r
  | Some z => (z = 1 /\ decimalValue r < decimalValue l)
              \/ (z = -1 /\ decimalValue l < decimalValue r)
  end.
Proof.
  induction l as [| lc l IH]; intros [| rc r] Hlen Hl Hr;
    try discriminate Hlen; [reflexivity |].
  cbn [allDigits] in Hl, Hr.
  apply andb_prop in Hl as [Hlc Hl]. apply andb_prop in Hr as [Hrc Hr].
  apply Z.leb_le in Hlc, Hrc.
  injection Hlen as Hlen.
  cbn [compareELSA_loop]. rewrite !Atoi_digit by assumption.
  cbn [decimalValue].
  assert (Hsame : Strings.len l = Strings.len r)
    by (unfold Strings.len; now rewrite Hlen).
  rewrite Hsame.
  pose proof (decimalValue_bounds l Hl) as Bl.
  pose proof (decimalValue_bounds r Hr) as Br.
  rewrite Hsame in Bl.
  destruct (Z.gtb_spec (digitVal lc) (digitVal rc)) as [Hgt | Hle].
  { left. split; [reflexivity | nia]. }
  destruct (Z.ltb_spec (digitVal lc) (digitVal rc)) as [Hlt | Hge].
  { right. split; [reflexivity | nia]. }
  assert (Heq : digitVal lc = digitVal rc) by lia. rewrite Heq.
  specialize (IH r Hlen Hl Hr).
  destruct (compareELSA_loop l r) as [z |].
  - destruct IH as [[-> ?] | [-> ?]]; [left | right]; split; (reflexivity || lia).
  - lia.
Qed.

(** The sign of [compareELSA] on ids whose numerals are equally long. *)
Lemma compareELSA_same_length_sign (x y : Z) :
  0 <= x <= maxInt -> 0 <= y <= maxInt ->
  String.length (Itoa x) = String.length (Itoa y) ->
  (x < y -> compareELSA x y = -1)
  /\ (y < x -> compareELSA x y = 1).
Proof.
  intros Hx Hy Hlen.
  destruct (Itoa_numeral x Hx) as (Dx & Vx & _).
  destruct (Itoa_numeral y Hy) as (Dy & Vy & _).
  pose proof (compareELSA_loop_same_length _ _ Hlen Dx Dy) as Hloop.
  rewrite Vx, Vy in Hloop.
  unfold compareELSA.
  split; intros Hlt;
    (destruct (Z.eqb_spec y x) as [-> | _]; [lia |]);
    destruct (compareELSA_loop (Itoa x) (Itoa y)) as [z |];
    [ destruct Hloop as [[-> ?] | [-> ?]]; (reflexivity || lia) | lia
    | destruct Hloop as [[-> ?] | [-> ?]]; (reflexivity || lia) | lia ].
Qed.

End Ordering.

Section Lexicographic.

Import Strconv.

(** A digit is the byte 48 + its value. *)
Lemma digit_code c :
  digitVal c <= 9 -> Z.of_N (N_of_ascii c) = digitVal c + 48.
Proof.
  unfold digitVal, nat_of_ascii. rewrite N_nat_Z.
  pose proof (nat_ascii_bounded c) as Hb. unfold nat_of_ascii in Hb.
  assert (Hc : 0 <= Z.of_N (N_of_ascii c) < 256) by lia.
  destruct (Z_lt_ge_dec (Z.of_N (N_of_ascii c)) 48) as [Hlt | Hge].
  - replace ((Z.of_N (N_of_ascii c) - 48) mod 256)
      with (Z.of_N (N_of_ascii c) - 48 + 256); [lia |].
    apply Z.mod_unique with (q := -1); lia.
  - rewrite Z.mod_small by lia. lia.
Qed.

Lemma digit_compare lc rc :
  digitVal lc <= 9 -> digitVal rc <= 9 ->
  Ascii.compare lc rc = (digitVal lc ?= digitVal rc).
Proof.
  intros Hl Hr. unfold Ascii.compare.
  rewrite <- (N2Z.inj_compare (N_of_ascii lc) (N_of_ascii rc)).
  rewrite (digit_code lc Hl), (digit_code rc Hr).
  rewrite !(Z.add_comm _ 48). apply Z.add_compare_mono_l.
Qed.

(** On numerals the loop of [compareELSA] is the lexicographic
    comparison of the two strings; it runs to its end exactly when the
    left one is a prefix of the right one. *)
Lemma compareELSA_loop_lexicographic l : forall r,
  allDigits l = true -> allDigits r = true ->
  match compareELSA_loop l r with
  | Some z => (z = 1 /\ String.compare l r = Gt)
              \/ (z = -1 /\ String.compare l r = Lt)
  | None => (String.compare l r = Eq /\ Strings.len l = Strings.len r)
            \/ (String.compare l r = Lt /\ Strings.len l < Strings.len r)
  end.
Proof.
  induction l as [| lc l IH]; intros [| rc r] Hl Hr.
  - left. split; reflexivity.
  - right. split; [reflexivity |]. unfold Strings.len. cbn. lia.
  - left. split; reflexivity.
  - cbn [allDigits] in Hl, Hr.
    apply andb_prop in Hl as [Hlc Hl]. apply andb_prop in Hr as [Hrc Hr].
    apply Z.leb_le in Hlc, Hrc.
    cbn [compareELSA_loop String.compare].
    rewrite !Atoi_digit by assumption.
    rewrite (digit_compare lc rc Hlc Hrc).
    destruct (Z.gtb_spec (digitVal lc) (digitVal rc)) as [Hgt | Hle].
    { left. split; [reflexivity |]. apply Z.lt_gt in Hgt.
      unfold Z.gt in Hgt. now rewrite Hgt. }
    destruct (Z.ltb_spec (digitVal lc) (digitVal rc)) as [Hlt | Hge].
    { right. split; [reflexivity |]. unfold Z.lt in Hlt. now rewrite Hlt. }
    assert (Heq : digitVal lc = digitVal rc) by lia.
    rewrite Heq, Z.compare_refl.
    specialize (IH r Hl Hr). rewrite !len_String.
    destruct (compareELSA_loop l r); [exact IH |].
    destruct IH as [[? ?] | [? ?]]; [left | right]; split; (assumption || lia).
Qed.

(** [compareELSA] orders ids as their numerals are ordered as strings. *)
Lemma compareELSA_lexicographic (x y : Z) :
  0 <= x <= maxInt -> 0 <= y <= maxInt ->
  (compareELSA x y < 0 <-> String.compare (Itoa x) (Itoa y) = Lt).
Proof.
  intros Hx Hy.
  destruct (Itoa_numeral x Hx) as (Dx & Vx & _).
  destruct (Itoa_numeral y Hy) as (Dy & Vy & _).
  unfold compareELSA. destruct (Z.eqb_spec y x) as [-> | Hne].
  - assert (Hrefl : String.compare (Itoa x) (Itoa x) = Eq).
    { destruct (String.compare (Itoa x) (Itoa x)) eqn:Hc; [reflexivity | |];
        pose proof (String.compare_antisym (Itoa x) (Itoa x)) as Ha;
        rewrite Hc in Ha; discriminate Ha. }
    rewrite Hrefl. split; [lia | discriminate].
  - pose proof (compareELSA_loop_lexicographic _ _ Dx Dy) as Hloop.
    destruct (compareELSA_loop (Itoa x) (Itoa y)) as [z |].
    + destruct Hloop as [[-> ->] | [-> ->]]; split; (lia || discriminate || auto).
    + destruct Hloop as [[Heq _] | [-> Hlen]].
      * apply String.compare_eq_iff in Heq. congruence.
      * split; [reflexivity | lia].
Qed.

End Lexicographic.

Section Selection.

Context {ext : Collaborators}.

Lemma listELSAs_from first lines : forall acc id,
  In id (List.fold_left
           (fun elsaList line =>
              match FindStringSubmatch line with
              | [_; digits] =>
                  let elsaNo := fst (Strconv.Atoi digits) in
                  if compareELSA elsaNo first >? 0
                  then elsaList ++ [elsaNo] else elsaList
              | _ => elsaList
              end) lines acc)
  <-> In id acc \/ (listed lines id /\ 0 < compareELSA id first).
Proof.
  induction lines as [| line lines IH]; intros acc id; cbn [List.fold_left].
  - split; [auto |]. intros [H | [(l & _ & _ & [] & _) _]]. exact H.
  - rewrite IH. clear IH.
    assert (Hstep :
               listed (line :: lines) id /\ 0 < compareELSA id first
               <-> (exists whole digits,
                       FindStringSubmatch line = [whole; digits]
                       /\ id = fst (Strconv.Atoi digits)
                       /\ 0 < compareELSA id first)
                   \/ (listed lines id /\ 0 < compareELSA id first)).
    { split.
      - intros [(l & w & d & [<- | Hin] & Hm & Hid) Hc].
        + left. eauto.
        + right. split; [exists l, w, d |]; auto.
      - intros [(w & d & Hm & Hid & Hc) | [(l & w & d & Hin & Hm & Hid) Hc]].
        + split; [exists line, w, d; cbn; auto | exact Hc].
        + split; [exists l, w, d; cbn; auto | exact Hc]. }
    rewrite Hstep. clear Hstep.
    destruct (FindStringSubmatch line) as [| w [| d [| ? ?]]] eqn:Hm.
    1, 2, 4: split; [intros [H | H]; auto |];
      intros [H | [(w' & d' & Hm' & _) | H]]; auto; discriminate Hm'.
    cbn zeta.
    destruct (Z.gtb_spec (compareELSA (fst (Strconv.Atoi d)) first) 0)
      as [Hpos | Hneg].
    + rewrite in_app_iff. cbn [In]. split.
      * intros [[H | [<- | []]] | H]; auto.
        right. left. exists w, d. repeat split; auto; lia.
      * intros [H | [(w' & d' & Hm' & Hid & Hc) | H]]; auto.
        injection Hm' as <- <-. subst id. auto.
    + split.
      * intros [H | H]; auto.
      * intros [H | [(w' & d' & Hm' & Hid & Hc) | H]]; auto.
        injection Hm' as <- <-. subst id. lia.
Qed.

Lemma listELSAs_spec first lines id :
  In id (listELSAs first lines)
  <-> listed lines id /\ 0 < compareELSA id first.
Proof.
  unfold listELSAs. rewrite listELSAs_from. cbn [In]. tauto.
Qed.

End Selection.

(** C1 (as amended).  [compareELSA] orders ids as their decimal numerals
    are ordered as strings, digit by digit from the left, a numeral that
    starts a longer one coming first.  For non-negative ids [a < b] whose
    numerals are equally long it therefore reports [a] less than [b] and
    [b] greater than [a]; and the ids [Update] selects from the update
    list are exactly the listed ones for which [compareELSA] against the
    cursor is positive. *)
Theorem compareELSA_orders_equal_length_ids
  {ext : Collaborators} (a b : Z) (lines : list string) :
  0 <= a -> a < b -> b <= Strconv.maxInt ->
  String.length (Strconv.Itoa a) = String.length (Strconv.Itoa b) ->
  compareELSA a b < 0
  /\ 0 < compareELSA b a
  /\ (forall x y,
         0 <= x <= Strconv.maxInt -> 0 <= y <= Strconv.maxInt ->
         (compareELSA x y < 0
          <-> String.compare (Strconv.Itoa x) (Strconv.Itoa y) = Lt))
  /\ (forall id, In id (listELSAs a lines)
                 <-> listed lines id /\ 0 < compareELSA id a).
Proof.
  intros Ha Hab Hb Hlen.
  destruct (compareELSA_same_length_sign a b) as [Hlt _];
    [lia | lia | exact Hlen |].
  destruct (compareELSA_same_length_sign b a) as [_ Hgt];
    [lia | lia | now symmetry |].
  rewrite (Hlt Hab), (Hgt Hab).
  split; [lia |]. split; [lia |]. split.
  - intros x y Hx Hy. now apply compareELSA_lexicographic.
  - intros id. apply listELSAs_spec.
Qed.

Lemma compareELSA_orders_equal_length_ids_witness :
  compareELSA 20070057 20170001 < 0
  /\ 0 < compareELSA 20170001 20070057
  /\ (forall x y,
         0 <= x <= Strconv.maxInt -> 0 <= y <= Strconv.maxInt ->
         (compareELSA x y < 0
          <-> String.compare (Strconv.Itoa x) (Strconv.Itoa y) = Lt))
  /\ (forall id,
         In id (listELSAs (ext := Sim.offline) 20070057
                  ["com.oracle.elsa-20170001.xml"])
         <-> listed (ext := Sim.offline) ["com.oracle.elsa-20170001.xml"] id
             /\ 0 < compareELSA id 20070057).
Proof.
  apply (compareELSA_orders_equal_length_ids (ext := Sim.offline)
           20070057 20170001 ["com.oracle.elsa-20170001.xml"]);
    [lia | lia | vm_compute; discriminate | reflexivity].
Defined.

(** C1 fails as stated: 99 < 100, yet [compareELSA] reports 99 greater
    than 100, and with the cursor at 99 the id 100 is not selected. *)
Lemma compareELSA_99_100 :
  99 < 100
  /\ compareELSA 99 100 = 1
  /\ compareELSA 100 99 = -1
  /\ listELSAs (ext := Sim.offline) 99 ["com.oracle.elsa-100.xml"] = [].
Proof. repeat split. Qed.

(** ** The criteria normalizer *)

Section Normalizer.

Lemma filter_kept xs :
  Forall kept xs -> List.filter (fun c => negb (ignored c)) xs = xs.
Proof.
  induction 1 as [| c xs Hc _ IH]; cbn [List.filter]; [reflexivity |].
  unfold kept in Hc. rewrite Hc. cbn [negb]. now rewrite IH.
Qed.

Lemma compose_singletons xs ys :
  composeGroup (List.map (fun c => [c]) xs) (List.map (fun c => [c]) ys)
  = List.flat_map (fun x => List.map (fun y => [x; y]) ys) xs.
Proof.
  unfold composeGroup. induction xs as [| x xs IH]; cbn [List.map List.flat_map];
    [reflexivity |].
  rewrite IH. f_equal. now rewrite List.map_map.
Qed.

(** An AND node over two OR groups of leaves yields the cartesian
    product of the groups. *)
Lemma getPossibilities_product xs ys :
  Forall kept xs -> Forall kept ys ->
  getPossibilities
    (mkCriteria "AND" [mkCriteria "OR" [] xs; mkCriteria "OR" [] ys] [])
  = List.flat_map (fun x => List.map (fun y => [x; y]) ys) xs.
Proof.
  intros Hxs Hys. unfold getPossibilities, getCriterions.
  cbn [Criterias Criterions Operator List.map length Nat.ltb Nat.leb app
         String.eqb Ascii.eqb Bool.eqb List.fold_left].
  rewrite (filter_kept xs Hxs), (filter_kept ys Hys).
  apply compose_singletons.
Qed.

Lemma length_product {A B : Type} (f : A -> A -> B) (xs ys : list A) :
  length (List.flat_map (fun x => List.map (f x) ys) xs)
  = (length xs * length ys)%nat.
Proof.
  induction xs as [| x xs IH]; cbn [List.flat_map length]; [reflexivity |].
  rewrite length_app, length_map, IH. lia.
Qed.

End Normalizer.

Section Semantics.

Variable rho : criterion -> bool.

(** Induction on a criteria tree, with the hypothesis on every child. *)
Lemma criteria_tree_ind (P : criteria -> Prop) :
  (forall operator subs leaves,
      Forall P subs -> P (mkCriteria operator subs leaves)) ->
  forall node, P node.
Proof.
  intros Hnode.
  fix IH 1. intros [operator subs leaves]. apply Hnode.
  induction subs as [| sub subs IHsubs]; constructor; [apply IH | exact IHsubs].
Qed.

Lemma satisfiable_app ps qs :
  satisfiable rho (ps ++ qs) = satisfiable rho ps || satisfiable rho qs.
Proof. apply existsb_app. Qed.

Lemma satisfiable_singletons xs :
  satisfiable rho (List.map (fun c => [c]) xs) = existsb rho xs.
Proof.
  unfold satisfiable. induction xs as [| x xs IH]; cbn; [reflexivity |].
  now rewrite IH, andb_true_r.
Qed.

Lemma satisfiable_extend p qs :
  satisfiable rho (List.map (fun q => p ++ q) qs)
  = forallb rho p && satisfiable rho qs.
Proof.
  unfold satisfiable. induction qs as [| q qs IH]; cbn [List.map existsb].
  - now rewrite andb_false_r.
  - now rewrite IH, forallb_app, andb_orb_distrib_r.
Qed.

Lemma satisfiable_composeGroup ps qs :
  satisfiable rho (composeGroup ps qs)
  = satisfiable rho ps && satisfiable rho qs.
Proof.
  unfold composeGroup. induction ps as [| p ps IH]; cbn [List.flat_map].
  - reflexivity.
  - rewrite satisfiable_app, IH, satisfiable_extend.
    unfold satisfiable at 4. cbn [existsb].
    now rewrite andb_orb_distrib_l.
Qed.

Lemma satisfiable_fold groups : forall first,
  satisfiable rho (List.fold_left composeGroup groups first)
  = satisfiable rho first && forallb (satisfiable rho) groups.
Proof.
  induction groups as [| g groups IH]; intros first; cbn [List.fold_left forallb].
  - now rewrite andb_true_r.
  - now rewrite IH, satisfiable_composeGroup, andb_assoc.
Qed.

Lemma satisfiable_concat groups :
  satisfiable rho (List.concat groups) = existsb (satisfiable rho) groups.
Proof.
  induction groups as [| g groups IH]; cbn [List.concat existsb]; [reflexivity |].
  now rewrite satisfiable_app, IH.
Qed.

Lemma satisfiable_getCriterions node :
  satisfiable rho (getCriterions node)
  = let leaves := List.filter (fun c => negb (ignored c)) (Criterions node) in
    if String.eqb (Operator node) "AND" then forallb rho leaves
    else if String.eqb (Operator node) "OR" then existsb rho leaves
    else false.
Proof.
  unfold getCriterions. cbn zeta.
  destruct (String.eqb (Operator node) "AND").
  - unfold satisfiable. cbn. now rewrite orb_false_r.
  - destruct (String.eqb (Operator node) "OR"); [| reflexivity].
    apply satisfiable_singletons.
Qed.

Lemma getPossibilities_children operator sub subs leaves :
  getPossibilities (mkCriteria operator (sub :: subs) leaves)
  = let node := mkCriteria operator (sub :: subs) leaves in
    let possibilitiesToCompose :=
      List.map getPossibilities (sub :: subs)
      ++ (if (0 <? length leaves)%nat then [getCriterions node] else []) in
    if String.eqb operator "AND" then
      match possibilitiesToCompose with
      | [] => []
      | first :: others => List.fold_left composeGroup others first
      end
    else if String.eqb operator "OR" then List.concat possibilitiesToCompose
    else [].
Proof. reflexivity. Qed.

Lemma forallb_children subs :
  Forall (fun node => satisfiable rho (getPossibilities node) = holds rho node)
         subs ->
  forallb (satisfiable rho) (List.map getPossibilities subs)
  = forallb (holds rho) subs.
Proof.
  induction 1 as [| sub subs Hsub _ IH]; cbn [List.map forallb]; [reflexivity |].
  now rewrite Hsub, IH.
Qed.

Lemma existsb_children subs :
  Forall (fun node => satisfiable rho (getPossibilities node) = holds rho node)
         subs ->
  existsb (satisfiable rho) (List.map getPossibilities subs)
  = existsb (holds rho) subs.
Proof.
  induction 1 as [| sub subs Hsub _ IH]; cbn [List.map existsb]; [reflexivity |].
  now rewrite Hsub, IH.
Qed.

(** The possibilities of a tree are its disjunctive normal form: some
    possibility is satisfied exactly when the tree holds. *)
Lemma getPossibilities_normal_form node :
  satisfiable rho (getPossibilities node) = holds rho node.
Proof.
  induction node as [operator subs leaves IH] using criteria_tree_ind.
  destruct subs as [| sub subs].
  - cbn [getPossibilities holds Criterias Criterions Operator forallb existsb].
    rewrite satisfiable_getCriterions.
    cbn [Criterias Criterions Operator andb orb]. reflexivity.
  - rewrite getPossibilities_children. cbn zeta.
    cbn [holds Criterias Criterions Operator].
    set (children := sub :: subs) in *.
    set (own := if (0 <? length leaves)%nat
                then [getCriterions (mkCriteria operator children leaves)]
                else []).
    set (keptLeaves := List.filter (fun c => negb (ignored c)) leaves).
    destruct (String.eqb operator "AND") eqn:Eand.
    + assert (Hown : forallb (satisfiable rho) own = forallb rho keptLeaves).
      { subst own keptLeaves. destruct leaves as [| l leaves]; [reflexivity |].
        cbn [length Nat.ltb Nat.leb forallb].
        rewrite satisfiable_getCriterions. cbn [Operator Criterions].
        rewrite Eand. now rewrite andb_true_r. }
      rewrite <- (forallb_children children IH), <- Hown.
      subst children. cbn [List.map app forallb].
      now rewrite satisfiable_fold, forallb_app, andb_assoc.
    + destruct (String.eqb operator "OR") eqn:Eor; [| reflexivity].
      assert (Hown : existsb (satisfiable rho) own = existsb rho keptLeaves).
      { subst own keptLeaves. destruct leaves as [| l leaves]; [reflexivity |].
        cbn [length Nat.ltb Nat.leb existsb].
        rewrite satisfiable_getCriterions. cbn [Operator Criterions].
        rewrite Eand, Eor. now rewrite orb_false_r. }
      rewrite <- (existsb_children children IH), <- Hown.
      now rewrite satisfiable_concat, existsb_app.
Qed.

End Semantics.

(** C2.  For criterions that carry none of the ignored markers: an AND
    node with the two leaves [X] and [Y] yields the one possibility
    [[X; Y]]; an OR node with the same leaves yields the two possibilities
    [[X]] and [[Y]]; an AND node over two OR groups of two and of three
    leaves yields the six possibilities of their cartesian product, each
    of length two. *)
Theorem getPossibilities_enumerates (X Y A1 A2 B1 B2 B3 : criterion) :
  ignored X = false -> ignored Y = false ->
  ignored A1 = false -> ignored A2 = false ->
  ignored B1 = false -> ignored B2 = false -> ignored B3 = false ->
  getPossibilities (mkCriteria "AND" [] [X; Y]) = [[X; Y]]
  /\ getPossibilities (mkCriteria "OR" [] [X; Y]) = [[X]; [Y]]
  /\ getPossibilities
       (mkCriteria "AND"
          [mkCriteria "OR" [] [A1; A2]; mkCriteria "OR" [] [B1; B2; B3]] [])
     = [[A1; B1]; [A1; B2]; [A1; B3]; [A2; B1]; [A2; B2]; [A2; B3]].
Proof.
  intros HX HY HA1 HA2 HB1 HB2 HB3.
  assert (HXY : Forall kept [X; Y]) by (repeat constructor; assumption).
  split; [| split].
  - unfold getPossibilities, getCriterions. cbn [Criterias Criterions Operator].
    now rewrite (filter_kept _ HXY).
  - unfold getPossibilities, getCriterions. cbn [Criterias Criterions Operator].
    now rewrite (filter_kept _ HXY).
  - apply (getPossibilities_product [A1; A2] [B1; B2; B3]);
      repeat constructor; assumption.
Qed.

Lemma getPossibilities_enumerates_witness :
  getPossibilities (Sim.AND [] ["X"; "Y"])
  = [[Sim.leaf "X"; Sim.leaf "Y"]]
  /\ getPossibilities (Sim.OR [] ["X"; "Y"])
     = [[Sim.leaf "X"]; [Sim.leaf "Y"]]
  /\ getPossibilities
       (Sim.AND [Sim.OR [] ["a1"; "a2"]; Sim.OR [] ["b1"; "b2"; "b3"]] [])
     = [[Sim.leaf "a1"; Sim.leaf "b1"]; [Sim.leaf "a1"; Sim.leaf "b2"];
        [Sim.leaf "a1"; Sim.leaf "b3"]; [Sim.leaf "a2"; Sim.leaf "b1"];
        [Sim.leaf "a2"; Sim.leaf "b2"]; [Sim.leaf "a2"; Sim.leaf "b3"]].
Proof.
  apply (getPossibilities_enumerates
           (Sim.leaf "X") (Sim.leaf "Y") (Sim.leaf "a1") (Sim.leaf "a2")
           (Sim.leaf "b1") (Sim.leaf "b2") (Sim.leaf "b3")); reflexivity.
Defined.

(** ** Descriptions *)

Section Descriptions.

Import Strings.

Lemma append_empty_r s : s +:+ "" = s.
Proof.
  induction s as [| c s IH]; cbn [String.append]; [reflexivity | now f_equal].
Qed.

Lemma append_assoc (s t u : string) : (s +:+ t) +:+ u = s +:+ (t +:+ u).
Proof.
  induction s as [| c s IH]; cbn [String.append]; [reflexivity | now f_equal].
Qed.

(** A piece without line feeds is copied as it is when runs of [k] line
    feeds are replaced. *)
Lemma replace_piece k new w s :
  noLineFeed w = true ->
  ReplaceAll (w +:+ s) (lineFeeds (S k)) new
  = w +:+ ReplaceAll s (lineFeeds (S k)) new.
Proof.
  unfold ReplaceAll. induction w as [| c w IH]; intros Hw; [reflexivity |].
  cbn [noLineFeed] in Hw. apply andb_prop in Hw as [Hc Hw].
  apply negb_true_iff in Hc.
  cbn [String.append replaceFrom lineFeeds HasPrefix].
  rewrite Hc. cbn [andb]. f_equal. now apply IH.
Qed.

Lemma startsClean_pieces sep segs last :
  match segs with [] => True | (w, _) :: _ => w <> "" end ->
  shortRuns segs last ->
  startsClean (pieces sep segs last).
Proof.
  destruct segs as [| [w n] segs]; cbn [shortRuns pieces].
  - intros _ Hl. destruct last as [| c last]; [exact I |].
    cbn [noLineFeed] in Hl. apply andb_prop in Hl as [Hc _].
    now apply negb_true_iff in Hc.
  - intros Hne (Hw & _). destruct w as [| c w]; [congruence |].
    cbn [noLineFeed] in Hw. apply andb_prop in Hw as [Hc _].
    now apply negb_true_iff in Hc.
Qed.

(** One pass of [description]: if replacing runs of [k] line feeds
    turns what [sep_in] writes for a run into what [sep_out] writes,
    it does so all along the text. *)
Lemma replace_pieces k new (sep_in sep_out : nat -> string) :
  (forall n t, (1 <= n <= 3)%nat -> startsClean t ->
     ReplaceAll (sep_in n +:+ t) (lineFeeds (S k)) new
     = sep_out n +:+ ReplaceAll t (lineFeeds (S k)) new) ->
  forall segs last, shortRuns segs last ->
    ReplaceAll (pieces sep_in segs last) (lineFeeds (S k)) new
    = pieces sep_out segs last.
Proof.
  intros Hrun. induction segs as [| [w n] segs IH]; intros last;
    cbn [shortRuns pieces].
  - intros Hl. rewrite <- (append_empty_r last) at 1.
    rewrite replace_piece by exact Hl. apply append_empty_r.
  - intros (Hw & Hn & Hnext & Hrest).
    rewrite replace_piece by exact Hw.
    rewrite Hrun; [| exact Hn | now apply startsClean_pieces].
    now rewrite IH.
Qed.

Lemma triples_pass n t :
  (1 <= n <= 3)%nat -> startsClean t ->
  ReplaceAll (lineFeeds n +:+ t) (lineFeeds 3) " "
  = afterTriples n +:+ ReplaceAll t (lineFeeds 3) " ".
Proof.
  intros Hn Ht. by_run_length n t Ht.
Qed.

Lemma pairs_pass n t :
  (1 <= n <= 3)%nat -> startsClean t ->
  ReplaceAll (afterTriples n +:+ t) (lineFeeds 2) " "
  = afterPairs n +:+ ReplaceAll t (lineFeeds 2) " ".
Proof.
  intros Hn Ht. by_run_length n t Ht.
Qed.

Lemma singles_pass n t :
  (1 <= n <= 3)%nat -> startsClean t ->
  ReplaceAll (afterPairs n +:+ t) (lineFeeds 1) " "
  = " " +:+ ReplaceAll t (lineFeeds 1) " ".
Proof.
  intros Hn Ht. by_run_length n t Ht.
Qed.

End Descriptions.

(** C7 (as amended).  In a description whose runs of line feeds are one
    to three long, [description] writes exactly one space for every run
    and keeps the rest; so "A\n\n\nB\n\nC\nD" becomes "A B C D". *)
Theorem description_collapses_short_runs
  (def : definition) (segs : list (string * nat)) (last : string) :
  shortRuns segs last ->
  Description def = pieces lineFeeds segs last ->
  description def = pieces (fun _ => " ") segs last.
Proof.
  intros Hruns Hd. unfold description. rewrite Hd.
  change (Strings.bytes [10; 10; 10]%nat) with (lineFeeds 3).
  change (Strings.bytes [10; 10]%nat) with (lineFeeds 2).
  change (Strings.bytes [10]%nat) with (lineFeeds 1).
  rewrite (replace_pieces 2 " " lineFeeds afterTriples triples_pass) by exact Hruns.
  rewrite (replace_pieces 1 " " afterTriples afterPairs pairs_pass) by exact Hruns.
  apply (replace_pieces 0 " " afterPairs (fun _ => " ") singles_pass), Hruns.
Qed.

Lemma description_collapses_short_runs_witness :
  description
    (Sim.advisory "ELSA-2017-1234: sample"
       ("A" +:+ lineFeeds 3 +:+ "B" +:+ lineFeeds 2 +:+ "C" +:+ lineFeeds 1 +:+ "D")
       Sim.fooOn7)
  = "A B C D".
Proof.
  apply (description_collapses_short_runs
           (Sim.advisory "ELSA-2017-1234: sample"
              ("A" +:+ lineFeeds 3 +:+ "B" +:+ lineFeeds 2 +:+ "C"
               +:+ lineFeeds 1 +:+ "D") Sim.fooOn7)
           [("A", 3%nat); ("B", 2%nat); ("C", 1%nat)] "D").
  - cbn. repeat split; (lia || discriminate).
  - reflexivity.
Defined.

(** C7 fails as stated: a run of four line feeds becomes two spaces. *)
Lemma description_four_line_feeds :
  description (Sim.advisory "ELSA-2017-1234: sample"
                 ("A" +:+ lineFeeds 4 +:+ "B") Sim.fooOn7)
  = "A  B".
Proof. reflexivity. Qed.

(** ** The feature extractor *)

Section Extractor.

Context {ext : Collaborators}.

Import database.

(** The outcomes of one step of the scan that does not panic. *)
Lemma scanCriterion_done featureVersion osVersion c st :
  scanCriterion (featureVersion, osVersion) c = Done st ->
  (Strings.Contains (Comment c) " is installed" = true
   /\ fst st = featureVersion)
  \/ (exists version,
         boundsVersion c version
         /\ Valid ParserName version = true
         /\ AffectedFeature.AffectedVersion (fst st) = version
         /\ snd st = osVersion)
  \/ (AffectedFeature.AffectedVersion (fst st)
      = AffectedFeature.AffectedVersion featureVersion
      /\ AffectedFeature.FixedInVersion (fst st)
         = AffectedFeature.FixedInVersion featureVersion
      /\ snd st = osVersion).
Proof.
  unfold scanCriterion.
  destruct (Strings.Contains (Comment c) " is installed") eqn:Hi.
  - destruct (Strings.sliceFrom _ _) as [rest |]; cbn; [| discriminate].
    destruct (Strings.slice _ _ _) as [token |]; cbn; [| discriminate].
    intros [= <-]. left. auto.
  - destruct (Strings.Contains (Comment c) " is earlier than ") eqn:He.
    + destruct (Strings.sliceTo _ _) as [nm |]; cbn; [| discriminate].
      destruct (Strings.sliceFrom _ _) as [version |] eqn:Hv; cbn;
        [| discriminate].
      destruct (Valid ParserName version) eqn:Hvalid.
      * destruct (negb (String.eqb version MaxVersion));
          intros [= <-]; right; left; exists version;
          repeat split; auto.
      * intros [= <-]. right. right. auto.
    + intros [= <-]. right. right. auto.
Qed.

(** A feature is kept only if the four tests of [toFeatures] pass. *)
Lemma toFeatures_resolved criteria pkgs f :
  toFeatures criteria = Done pkgs -> In f pkgs ->
  exists possibility st,
    In possibility (getPossibilities criteria)
    /\ forRange scanCriterion possibility (AffectedFeature.zero, 0) = Done st
    /\ f = finishFeature (fst st) (snd st)
    /\ resolved f = true.
Proof.
  unfold toFeatures. intros Hrun Hin.
  destruct (forRange addPossibility (getPossibilities criteria) ∅)
    as [m |] eqn:Hm; cbn in Hrun; [| discriminate].
  injection Hrun as <-.
  apply list_elem_of_In, list_elem_of_fmap in Hin as ([k f'] & -> & Hin).
  apply elem_of_map_to_list in Hin. cbn [snd].
  revert k f' Hin.
  apply (forRange_invariant addPossibility
           (fun m => forall k f, m !! k = Some f ->
              exists possibility st,
                In possibility (getPossibilities criteria)
                /\ forRange scanCriterion possibility (AffectedFeature.zero, 0)
                   = Done st
                /\ f = finishFeature (fst st) (snd st)
                /\ resolved f = true)
           (getPossibilities criteria)) with (st := ∅) (st' := m);
    [| intros k f Hk; now rewrite lookup_empty in Hk | exact Hm].
  intros m0 possibility m1 Hp Hm0. unfold addPossibility.
  destruct (forRange scanCriterion possibility (AffectedFeature.zero, 0))
    as [st |] eqn:Hscan; cbn; [| discriminate].
  destruct (resolved (finishFeature (fst st) (snd st))) eqn:Hres;
    intros [= <-]; [| exact Hm0].
  intros k f. rewrite lookup_insert. case_decide as Hk.
  - intros [= <-]. exists possibility, st. auto.
  - apply Hm0.
Qed.

(** What the scan of a possibility leaves in [AffectedVersion]. *)
Lemma scan_affected_version possibility st :
  forRange scanCriterion possibility (AffectedFeature.zero, 0) = Done st ->
  AffectedFeature.AffectedVersion (fst st) = ""
  \/ exists c, In c possibility
               /\ boundsVersion c (AffectedFeature.AffectedVersion (fst st))
               /\ Valid ParserName (AffectedFeature.AffectedVersion (fst st))
                  = true.
Proof.
  apply (forRange_invariant scanCriterion
           (fun st =>
              AffectedFeature.AffectedVersion (fst st) = ""
              \/ exists c, In c possibility
                   /\ boundsVersion c (AffectedFeature.AffectedVersion (fst st))
                   /\ Valid ParserName (AffectedFeature.AffectedVersion (fst st))
                      = true)); [| now left].
  intros [fv os] c st' Hc Hst Hstep.
  apply scanCriterion_done in Hstep
    as [[_ ->] | [(version & Hb & Hv & Hav & _) | (Hav & _)]].
  - exact Hst.
  - right. exists c. rewrite Hav. auto.
  - rewrite Hav. exact Hst.
Qed.

Lemma resolved_fields f :
  resolved f = true ->
  AffectedFeature.FeatureName f <> ""
  /\ AffectedFeature.AffectedVersion f <> ""
  /\ AffectedFeature.FixedInVersion f <> "".
Proof.
  unfold resolved. intros H.
  repeat (apply andb_prop in H as [H ?]).
  repeat match goal with
    | H : negb (String.eqb _ _) = true |- _ =>
        apply negb_true_iff, String.eqb_neq in H
    end.
  auto.
Qed.

(** The scan step on a bound whose version is the sentinel. *)
Lemma scanCriterion_sentinel c featureVersion osVersion :
  boundsVersion c MaxVersion -> Valid ParserName MaxVersion = true ->
  exists featureVersion',
    scanCriterion (featureVersion, osVersion) c = Done (featureVersion', osVersion)
    /\ AffectedFeature.AffectedVersion featureVersion' = MaxVersion
    /\ AffectedFeature.FixedInVersion featureVersion'
       = AffectedFeature.FixedInVersion featureVersion.
Proof.
  intros (Hi & He & Hv) Hvalid. unfold scanCriterion. rewrite Hi, He.
  destruct (Contains_true _ _ He) as [Hlo Hhi].
  unfold Strings.sliceTo, Strings.slice at 1.
  pose proof (Z.leb_refl 0) as H0. rewrite H0. cbn [andb].
  destruct (Z.leb_spec 0 (Strings.Index (Comment c) " is earlier than "));
    [| lia].
  destruct (Z.leb_spec (Strings.Index (Comment c) " is earlier than ")
              (Strings.len (Comment c))) as [_ | Hbad].
  2: { unfold Strings.len in *. cbn in Hhi. lia. }
  cbn [andb]. cbn [mbind exec_bind]. rewrite Hv. cbn [mbind exec_bind].
  rewrite Hvalid, String.eqb_refl. cbn [negb].
  eexists. split; [reflexivity |]. split; reflexivity.
Qed.

End Extractor.

(** C4 (as amended).  On a version bound whose version is the sentinel
    [MaxVersion], accepted by the validator, the scan sets the affected
    version to the sentinel and leaves the fixed-in version as it was
    (empty, if no earlier bound of the possibility set it).  Such a
    feature is not kept on that account: every feature [toFeatures]
    returns has a fixed-in version that is not empty. *)
Theorem sentinel_bound_is_not_resolved
  {ext : Collaborators} (c : criterion)
  (featureVersion : database.AffectedFeature.t) (osVersion : Z) :
  boundsVersion c MaxVersion ->
  Valid ParserName MaxVersion = true ->
  (exists featureVersion',
      scanCriterion (featureVersion, osVersion) c
      = Done (featureVersion', osVersion)
      /\ database.AffectedFeature.AffectedVersion featureVersion' = MaxVersion
      /\ database.AffectedFeature.FixedInVersion featureVersion'
         = database.AffectedFeature.FixedInVersion featureVersion)
  /\ (forall criteria pkgs f,
         toFeatures criteria = Done pkgs -> In f pkgs ->
         database.AffectedFeature.FixedInVersion f <> "").
Proof.
  intros Hb Hv. split; [now apply scanCriterion_sentinel |].
  intros criteria pkgs f Hrun Hin.
  destruct (toFeatures_resolved criteria pkgs f Hrun Hin)
    as (_ & _ & _ & _ & _ & Hres).
  now apply resolved_fields in Hres.
Qed.

Lemma sentinel_bound_is_not_resolved_witness :
  (exists featureVersion',
      scanCriterion (ext := Sim.offline) (database.AffectedFeature.zero, 7)
        (Sim.leaf "foo is earlier than #MAXV#")
      = Done (featureVersion', 7)
      /\ database.AffectedFeature.AffectedVersion featureVersion' = "#MAXV#"
      /\ database.AffectedFeature.FixedInVersion featureVersion' = "")
  /\ (forall criteria pkgs f,
         toFeatures (ext := Sim.offline) criteria = Done pkgs -> In f pkgs ->
         database.AffectedFeature.FixedInVersion f <> "").
Proof.
  apply (sentinel_bound_is_not_resolved (ext := Sim.offline)
           (Sim.leaf "foo is earlier than #MAXV#")
           database.AffectedFeature.zero 7).
  - repeat split.
  - reflexivity.
Defined.

(** C4 fails as stated: on release 7, a package bounded by the sentinel
    alone yields no feature at all. *)
Lemma sentinel_bound_yields_no_feature :
  Valid (Collaborators := Sim.offline) "rpm" "#MAXV#" = true
  /\ toFeatures (ext := Sim.offline)
       (Sim.AND [] ["Oracle Linux 7 is installed"; "foo is earlier than #MAXV#"])
     = Done [].
Proof. split; reflexivity. Qed.

(** C6 (as amended).  The affected version of every feature [toFeatures]
    returns is the version text of a version bound in one of the
    possibilities, a text the validator accepted. *)
Theorem affected_version_is_a_bound
  {ext : Collaborators} (criteria : criteria)
  (pkgs : list database.AffectedFeature.t) (f : database.AffectedFeature.t) :
  toFeatures criteria = Done pkgs -> In f pkgs ->
  exists possibility c,
    In possibility (getPossibilities criteria)
    /\ In c possibility
    /\ boundsVersion c (database.AffectedFeature.AffectedVersion f)
    /\ Valid ParserName (database.AffectedFeature.AffectedVersion f) = true.
Proof.
  intros Hrun Hin.
  destruct (toFeatures_resolved criteria pkgs f Hrun Hin)
    as (possibility & st & Hp & Hscan & -> & Hres).
  apply resolved_fields in Hres as (_ & Hav & _).
  cbn [finishFeature database.AffectedFeature.setNamespace
         database.AffectedFeature.AffectedVersion] in Hav |- *.
  destruct (scan_affected_version possibility st Hscan)
    as [Hempty | (c & Hc & Hb & Hv)]; [congruence |].
  exists possibility, c. auto.
Qed.

Lemma affected_version_is_a_bound_witness :
  exists possibility c,
    In possibility (getPossibilities Sim.fooOn7)
    /\ In c possibility
    /\ boundsVersion c
         (database.AffectedFeature.AffectedVersion Sim.fooFixed)
    /\ Valid (Collaborators := Sim.offline) "rpm"
         (database.AffectedFeature.AffectedVersion Sim.fooFixed) = true.
Proof.
  apply (affected_version_is_a_bound (ext := Sim.offline)
           Sim.fooOn7 [Sim.fooFixed] Sim.fooFixed).
  - reflexivity.
  - now left.
Defined.

(** C6 fails as stated: the affected version of the feature is the
    version of the bound, not the word "vulnerable". *)
Lemma affected_version_is_not_a_marker :
  toFeatures (ext := Sim.offline) Sim.fooOn7
  = Done [Sim.feature "oracle:7" "foo" "0:1.0-1.el7" "0:1.0-1.el7"]
  /\ database.AffectedFeature.AffectedVersion
       (Sim.feature "oracle:7" "foo" "0:1.0-1.el7" "0:1.0-1.el7")
     <> "vulnerable".
Proof. split; [reflexivity | discriminate]. Qed.

(** C5: the namespace [toFeatures] gives a feature is never empty, so
    the first of its four tests cannot fail; a possibility that names no
    release is kept all the same, under the namespace of release 0. *)
Theorem feature_without_release :
  (forall (ext : Collaborators) featureVersion osVersion,
      database.Namespace.Name
        (database.AffectedFeature.Namespace
           (finishFeature featureVersion osVersion)) <> "")
  /\ toFeatures (ext := Sim.offline)
       (Sim.AND [] ["foo is earlier than 0:1.0-1.el7"])
     = Done [Sim.feature "oracle:0" "foo" "0:1.0-1.el7" "0:1.0-1.el7"].
Proof. split; [intros ext fv os; discriminate | reflexivity]. Qed.

(** C8: an installed-release comment with no space after its first
    thirteen bytes makes the scan panic, and [toFeatures] with it,
    whatever the collaborators are. *)
Theorem toFeatures_panics_on_short_release :
  (forall (ext : Collaborators) st c rest,
      Strings.Contains (Comment c) " is installed" = true ->
      Strings.sliceFrom (Comment c) 13 = Done rest ->
      Strings.Contains rest " " = false ->
      scanCriterion st c = Panic)
  /\ (forall ext : Collaborators,
         toFeatures (Sim.AND [] ["kernel is installed";
                                 "foo is earlier than 0:1.0-1.el7"])
         = Panic).
Proof.
  split; [| reflexivity].
  intros ext [featureVersion osVersion] c rest Hi Hrest Hspace.
  unfold scanCriterion. rewrite Hi.
  change (Strings.len "Oracle Linux ") with 13. rewrite Hrest.
  cbn [mbind exec_bind]. rewrite (Contains_false _ _ Hspace).
  unfold Strings.slice. cbn [Z.add Z.pos_sub Z.leb Z.compare Pos.compare
                              Pos.compare_cont andb Z.succ_double Z.pred_double
                              Z.double Pos.pred_double].
  reflexivity.
Qed.

(** ** Names of vulnerabilities *)

Section Names.

Context {ext : Collaborators}.

Lemma name_panics def :
  Strings.Contains (Title def) ": " = false -> name def = Panic.
Proof.
  unfold Strings.Contains, name, Strings.sliceTo, Strings.slice.
  intros Hc. apply Z.leb_gt in Hc.
  destruct (Z.leb_spec 0 (Strings.Index (Title def) ": ")) as [? | _]; [lia |].
  reflexivity.
Qed.

Lemma perDefinition_panics def pkgs vulnerabilities :
  toFeatures (Criteria def) = Done pkgs -> pkgs <> [] ->
  Strings.Contains (Title def) ": " = false ->
  perDefinition vulnerabilities def = Panic.
Proof.
  intros Hf Hne Hc. unfold perDefinition. rewrite Hf. cbn.
  destruct pkgs as [| p pkgs]; [congruence |]. cbn.
  now rewrite name_panics.
Qed.

End Names.

(** C10.  Once a document is decoded, [parseELSA] returns only if every
    definition that yields at least one affected feature has a title
    containing ": ".  For a definition with a feature and a title without
    ": ", [name] slices the title at index -1 and panics, and so does
    [parseELSA]: it returns neither records nor a parse error. *)
Theorem parseELSA_needs_separator
  {ext : Collaborators} (ovalReader : string) (ov : oval) :
  xmlDecode ovalReader = Some ov ->
  (forall def pkgs,
      In def (Definitions ov) ->
      toFeatures (Criteria def) = Done pkgs -> pkgs <> [] ->
      Strings.Contains (Title def) ": " = false ->
      Strings.Index (Title def) ": " = -1
      /\ name def = Panic
      /\ parseELSA ovalReader = Panic)
  /\ (forall result,
         parseELSA ovalReader = Done result ->
         forall def pkgs,
           In def (Definitions ov) ->
           toFeatures (Criteria def) = Done pkgs -> pkgs <> [] ->
           Strings.Contains (Title def) ": " = true).
Proof.
  intros Hdec.
  assert (Hpanic : forall def pkgs,
             In def (Definitions ov) ->
             toFeatures (Criteria def) = Done pkgs -> pkgs <> [] ->
             Strings.Contains (Title def) ": " = false ->
             parseELSA ovalReader = Panic).
  { intros def pkgs Hin Hf Hne Hc. unfold parseELSA. rewrite Hdec.
    rewrite (forRange_panics perDefinition def (Definitions ov) Hin);
      [reflexivity |].
    intros st. now apply (perDefinition_panics def pkgs). }
  split.
  - intros def pkgs Hin Hf Hne Hc. repeat split.
    + now apply Contains_false.
    + now apply name_panics.
    + now apply (Hpanic def pkgs).
  - intros result Hres def pkgs Hin Hf Hne.
    destruct (Strings.Contains (Title def) ": ") eqn:Hc; [reflexivity |].
    rewrite (Hpanic def pkgs Hin Hf Hne Hc) in Hres. discriminate.
Qed.

Lemma parseELSA_needs_separator_witness :
  Strings.Index (Title Sim.untitled) ": " = -1
  /\ name Sim.untitled = Panic
  /\ parseELSA (ext := Sim.world [] [("doc", {| Definitions := [Sim.untitled] |})])
       "doc" = Panic.
Proof.
  destruct (parseELSA_needs_separator
              (ext := Sim.world [] [("doc", {| Definitions := [Sim.untitled] |})])
              "doc" {| Definitions := [Sim.untitled] |} eq_refl) as [Hpanic _].
  destruct (toFeatures (ext := Sim.offline) (Criteria Sim.untitled))
    as [pkgs |] eqn:Hf; [| vm_compute in Hf; discriminate Hf].
  apply (Hpanic Sim.untitled pkgs); [now left | exact Hf | | reflexivity].
  intros ->. vm_compute in Hf. discriminate Hf.
Defined.

(** ** The cursor *)

Section Cursor.

Import Strconv.

Lemma parseDigits_rejects s : forall n,
  allDigits s = false -> snd (parseDigits n s) <> None.
Proof.
  induction s as [| c s IH]; intros n Hd; cbn [allDigits] in Hd;
    [discriminate Hd |].
  cbn [parseDigits]. cbn zeta.
  destruct (Z.ltb_spec 9 (digitVal c)) as [Hc | Hc]; [discriminate |].
  destruct (maxUint64 <? n * 10 + digitVal c); [discriminate |].
  apply IH. apply andb_false_iff in Hd as [Hd | Hd]; [| exact Hd].
  apply Z.leb_gt in Hd. lia.
Qed.

Lemma parseDigits_overflow s : forall n,
  snd (parseDigits n s) = Some ErrRange -> fst (parseDigits n s) = maxUint64.
Proof.
  induction s as [| c s IH]; intros n; cbn [parseDigits]; cbn zeta.
  - discriminate.
  - destruct (9 <? digitVal c); [discriminate |].
    destruct (maxUint64 <? n * 10 + digitVal c); [reflexivity | apply IH].
Qed.

(** What is not a decimal numeral makes [Atoi] report an error. *)
Lemma Atoi_rejects s : isNumeral s = false -> snd (Atoi s) <> None.
Proof.
  destruct s as [| c s]; [discriminate |].
  unfold isNumeral, Atoi.
  set (neg := Ascii.eqb c "-").
  set (body := if neg || Ascii.eqb c "+" then s else String c s).
  intros Hn.
  assert (Herr : snd (ParseUint body) <> None).
  { unfold ParseUint. destruct body as [| b body'] eqn:Hb; [discriminate |].
    apply parseDigits_rejects.
    apply andb_false_iff in Hn as [Hn | Hn]; [discriminate Hn | exact Hn]. }
  assert (Hmax : snd (ParseUint body) = Some ErrRange ->
                 fst (ParseUint body) = maxUint64).
  { unfold ParseUint. destruct body; [discriminate | apply parseDigits_overflow]. }
  destruct (ParseUint body) as [un [[] |]]; cbn [fst snd] in *;
    [discriminate | | congruence].
  rewrite (Hmax eq_refl). destruct neg; cbn; discriminate.
Qed.

End Cursor.

(** C9 (as amended).  The cursor read at batch start is the baseline id
    whenever the stored value is absent, is not a decimal numeral, makes
    [Atoi] report an error (a numeral out of the range of [int]), or is
    zero. *)
Theorem firstELSA_baseline (flagValue : string) (ok : bool) :
  ok = false
  \/ isNumeral flagValue = false
  \/ snd (Strconv.Atoi flagValue) <> None
  \/ fst (Strconv.Atoi flagValue) = 0 ->
  firstELSA flagValue ok = firstOracle5ELSA.
Proof.
  intros H. unfold firstELSA.
  destruct ok; [| reflexivity].
  destruct H as [H | [H | [H | H]]].
  - discriminate H.
  - apply Atoi_rejects in H. destruct (Strconv.Atoi flagValue) as [v err].
    cbn [snd] in H. rewrite (bool_decide_eq_true_2 _ H), orb_true_r. reflexivity.
  - destruct (Strconv.Atoi flagValue) as [v err].
    cbn [snd] in H. rewrite (bool_decide_eq_true_2 _ H), orb_true_r. reflexivity.
  - destruct (Strconv.Atoi flagValue) as [v err].
    cbn [fst] in H. subst v. reflexivity.
Qed.

Lemma firstELSA_baseline_witness :
  firstELSA "ELSA-2017" true = firstOracle5ELSA.
Proof.
  apply (firstELSA_baseline "ELSA-2017" true). right. left. reflexivity.
Defined.

(** C9 fails as stated: the negative numeral "-5" is not replaced by the
    baseline id; the cursor is -5. *)
Lemma firstELSA_negative :
  firstELSA "-5" true = -5 /\ firstELSA "-5" true <> firstOracle5ELSA.
Proof. split; [reflexivity | discriminate]. Qed.

(** ** The batch *)

Section Batch.

Context {ext : Collaborators}.

Lemma appendVulnerabilities_nil resp : appendVulnerabilities resp [] = resp.
Proof.
  destruct resp as [flags notes vs]. unfold appendVulnerabilities.
  cbn. now rewrite app_nil_r.
Qed.

Lemma appendVulnerabilities_app resp vs ws :
  appendVulnerabilities (appendVulnerabilities resp vs) ws
  = appendVulnerabilities resp (vs ++ ws).
Proof. unfold appendVulnerabilities. cbn. now rewrite app_assoc. Qed.

Lemma fetchELSAs_fails elsa err resp elsaList :
  fetchFails elsa err -> fetchELSAs (elsa :: elsaList) resp = Done (resp, Some err).
Proof.
  cbn [fetchELSAs].
  intros [[-> ->] | [(r & -> & Hs & ->) | (r & -> & Hs & Hd & ->)]].
  - reflexivity.
  - now rewrite Hs.
  - rewrite Hs. cbn [negb]. unfold parseELSA. now rewrite Hd.
Qed.

(** The advisories before the first failure are parsed and their
    vulnerabilities collected; the failure returns them with its error. *)
Lemma fetchELSAs_stops pre : forall vss elsa post err resp,
  Forall2 fetched pre vss -> fetchFails elsa err ->
  fetchELSAs (pre ++ elsa :: post) resp
  = Done (appendVulnerabilities resp (List.concat vss), Some err).
Proof.
  induction pre as [| e pre IH]; intros vss elsa post err resp Hpre Hfail.
  - apply Forall2_nil_inv_l in Hpre as ->. cbn [app List.concat].
    rewrite appendVulnerabilities_nil. now apply fetchELSAs_fails.
  - apply Forall2_cons_inv_l in Hpre
      as (vs & vss' & (r & Hget & Hs & Hp) & Hpre & ->).
    cbn [app fetchELSAs List.concat]. rewrite Hget, Hs. cbn [negb].
    rewrite Hp. cbn. rewrite (IH vss' elsa post err _ Hpre Hfail).
    now rewrite appendVulnerabilities_app.
Qed.

End Batch.

(** C3 (as amended).  When the download of a listed advisory fails,
    answers with another status than 2xx or brings a document that does
    not decode, and the advisories listed before it were parsed, [Update]
    returns [ErrCouldNotDownload] or [ErrCouldNotParse] and sets no flag;
    the response it returns with the error holds the vulnerabilities of
    the advisories parsed before the failure. *)
Theorem Update_aborts_on_failed_fetch
  {ext : Collaborators} (datastore : Datastore) (flagValue : string) (ok : bool)
  (index : Response) (pre post : list Z) (elsa : Z)
  (vss : list (list database.VulnerabilityWithAffected.t))
  (err : commonerr.error) :
  FindKeyValueAndRollback datastore updaterFlag = (flagValue, ok, None) ->
  GetWithUserAgent ovalURI = Some index ->
  Status2xx index = true ->
  listELSAs (firstELSA flagValue ok) (scanLines (Body index))
  = pre ++ elsa :: post ->
  Forall2 fetched pre vss ->
  fetchFails elsa err ->
  Update datastore
  = Done ({| vulnsrc.Flags := ∅; vulnsrc.Notes := [];
             vulnsrc.Vulnerabilities := List.concat vss |}, Some err)
  /\ (err = commonerr.ErrCouldNotDownload \/ err = commonerr.ErrCouldNotParse).
Proof.
  intros Hkv Hget Hs Hlist Hpre Hfail. split.
  - unfold Update. rewrite Hkv, Hget, Hs. cbn [negb]. rewrite Hlist.
    rewrite (fetchELSAs_stops pre vss elsa post err _ Hpre Hfail).
    reflexivity.
  - destruct Hfail as [[_ ->] | [(r & _ & _ & ->) | (r & _ & _ & _ & ->)]]; auto.
Qed.

Lemma Update_aborts_on_failed_fetch_witness :
  Update (ext := Sim.feed) Sim.store
  = Done ({| vulnsrc.Flags := ∅; vulnsrc.Notes := [];
             vulnsrc.Vulnerabilities := List.concat [[Sim.five]; [Sim.nine]] |},
          Some commonerr.ErrCouldNotDownload)
  /\ (commonerr.ErrCouldNotDownload = commonerr.ErrCouldNotDownload
      \/ commonerr.ErrCouldNotDownload = commonerr.ErrCouldNotParse).
Proof.
  apply (Update_aborts_on_failed_fetch (ext := Sim.feed) Sim.store "3" true
           (200, "com.oracle.elsa-5.xml" +:+ Sim.LF
                 +:+ "com.oracle.elsa-9.xml" +:+ Sim.LF
                 +:+ "com.oracle.elsa-7.xml" +:+ Sim.LF)
           [5; 9] [] 7 [[Sim.five]; [Sim.nine]] commonerr.ErrCouldNotDownload).
  - reflexivity.
  - reflexivity.
  - reflexivity.
  - reflexivity.
  - repeat constructor.
    + exists (200, "five"). repeat split.
    + exists (200, "nine"). repeat split.
  - left. split; reflexivity.
Defined.

(** C3 fails as stated: with the cursor at 3 and the advisories 5, 9 and
    7 listed, the download of 7 failing, [Update] returns the error
    together with the vulnerabilities of 5 and 9. *)
Lemma Update_returns_partial_set :
  Update (ext := Sim.feed) Sim.store
  = Done ({| vulnsrc.Flags := ∅; vulnsrc.Notes := [];
             vulnsrc.Vulnerabilities := [Sim.five; Sim.nine] |},
          Some commonerr.ErrCouldNotDownload)
  /\ [Sim.five; Sim.nine] <> [].
Proof. split; [reflexivity | discriminate]. Qed.

(** * Further properties of the updater *)

(** ** More on the criteria normalizer *)

Section Leaves.

Lemma within_getCriterions node :
  within (fun c => kept c /\ In c (Criterions node)) (getCriterions node).
Proof.
  assert (Hkept : Forall (fun c => kept c /\ In c (Criterions node))
                    (List.filter (fun c => negb (ignored c)) (Criterions node))).
  { apply List.Forall_forall. intros c [Hin Hc]%filter_In. split; [| exact Hin].
    unfold kept. now apply negb_true_iff in Hc. }
  unfold within, getCriterions.
  destruct (String.eqb (Operator node) "AND"); [now repeat constructor |].
  destruct (String.eqb (Operator node) "OR"); [| constructor].
  apply List.Forall_forall. intros p (c & <- & Hc)%in_map_iff.
  constructor; [| constructor]. rewrite List.Forall_forall in Hkept. now apply Hkept.
Qed.

Lemma within_composeGroup P ps qs :
  within P ps -> within P qs -> within P (composeGroup ps qs).
Proof.
  unfold within, composeGroup. rewrite !List.Forall_forall.
  intros Hps Hqs r (p & Hp & (q & <- & Hq)%in_map_iff)%in_flat_map.
  apply List.Forall_app. split; [now apply Hps | now apply Hqs].
Qed.

Lemma within_fold P groups : forall first,
  within P first -> Forall (within P) groups ->
  within P (List.fold_left composeGroup groups first).
Proof.
  induction groups as [| g groups IH]; intros first Hfirst Hgroups;
    cbn [List.fold_left]; [exact Hfirst |].
  apply Forall_cons_iff in Hgroups as [Hg Hgroups].
  apply IH; [now apply within_composeGroup | exact Hgroups].
Qed.

Lemma within_concat P groups :
  Forall (within P) groups -> within P (List.concat groups).
Proof.
  unfold within. rewrite !List.Forall_forall.
  intros Hgroups p (g & Hg & Hp)%in_concat.
  specialize (Hgroups g Hg). rewrite List.Forall_forall in Hgroups. now apply Hgroups.
Qed.

Lemma within_weaken (P Q : criterion -> Prop) groups :
  (forall c, P c -> Q c) -> within P groups -> within Q groups.
Proof.
  intros HPQ. unfold within. apply List.Forall_impl. intros p. now apply List.Forall_impl.
Qed.

Lemma leavesOf_own node c : In c (Criterions node) -> In c (leavesOf node).
Proof. destruct node. cbn. intros H. apply in_or_app. now left. Qed.

Lemma leavesOf_child node sub c :
  In sub (Criterias node) -> In c (leavesOf sub) -> In c (leavesOf node).
Proof.
  destruct node as [operator subs leaves]. cbn [Criterias].
  intros Hsub Hc. cbn [leavesOf Criterions Criterias].
  apply in_or_app. right. apply in_flat_map. eauto.
Qed.

Lemma getPossibilities_within node :
  within (fun c => kept c /\ In c (leavesOf node)) (getPossibilities node).
Proof.
  induction node as [operator subs leaves IH] using criteria_tree_ind.
  set (node := mkCriteria operator subs leaves).
  assert (Hown : within (fun c => kept c /\ In c (leavesOf node))
                   (getCriterions node)).
  { apply (within_weaken (fun c => kept c /\ In c (Criterions node)));
      [| apply within_getCriterions].
    intros c [Hk Hc]. split; [exact Hk | now apply leavesOf_own]. }
  destruct subs as [| sub subs]; [exact Hown |].
  assert (Hgroups :
            Forall (within (fun c => kept c /\ In c (leavesOf node)))
              (List.map getPossibilities (sub :: subs)
               ++ (if (0 <? length leaves)%nat then [getCriterions node] else []))).
  { apply List.Forall_app. split.
    - apply List.Forall_forall. intros g (child & <- & Hchild)%in_map_iff.
      rewrite List.Forall_forall in IH.
      apply (within_weaken (fun c => kept c /\ In c (leavesOf child)));
        [| now apply IH].
      intros c [Hk Hc]. split; [exact Hk |].
      now apply (leavesOf_child node child).
    - destruct (0 <? length leaves)%nat; repeat constructor. exact Hown. }
  subst node. rewrite getPossibilities_children. cbn zeta.
  destruct (String.eqb operator "AND").
  - cbn [List.map app] in Hgroups |- *.
    apply Forall_cons_iff in Hgroups as [Hfirst Hothers].
    now apply within_fold.
  - destruct (String.eqb operator "OR"); [| constructor].
    now apply within_concat.
Qed.

End Leaves.

(** X1.  The possibilities of a criteria tree are its disjunctive normal
    form: whatever criterions hold, some possibility has all its
    criterions hold exactly when the tree holds, an AND node asking for
    all its children and kept leaves, an OR node for one of them, and a
    node with any other operator never holding. *)
Theorem possibilities_are_the_normal_form
  (rho : criterion -> bool) (node : criteria) :
  satisfiable rho (getPossibilities node) = holds rho node.
Proof. apply getPossibilities_normal_form. Qed.

(** X2.  A possibility holds nothing but criterions of the tree, and none
    that carries an ignored marker. *)
Theorem possibilities_hold_kept_leaves
  (node : criteria) (possibility : list criterion) (c : criterion) :
  In possibility (getPossibilities node) -> In c possibility ->
  In c (leavesOf node) /\ ignored c = false.
Proof.
  intros Hp Hc. pose proof (getPossibilities_within node) as Hall.
  unfold within in Hall. rewrite List.Forall_forall in Hall.
  specialize (Hall possibility Hp). rewrite List.Forall_forall in Hall.
  destruct (Hall c Hc) as [Hk Hin]. split; [exact Hin | exact Hk].
Qed.

Lemma possibilities_hold_kept_leaves_witness :
  In (Sim.leaf "foo is earlier than 0:1.0-1.el7")
     (leavesOf
        (Sim.AND [Sim.OR [] ["foo is earlier than 0:1.0-1.el7";
                             "foo is signed with the Oracle Linux 7 key"]]
                 ["Oracle Linux 7 is installed"]))
  /\ ignored (Sim.leaf "foo is earlier than 0:1.0-1.el7") = false.
Proof.
  apply (possibilities_hold_kept_leaves
           (Sim.AND [Sim.OR [] ["foo is earlier than 0:1.0-1.el7";
                                "foo is signed with the Oracle Linux 7 key"]]
                    ["Oracle Linux 7 is installed"])
           [Sim.leaf "foo is earlier than 0:1.0-1.el7";
            Sim.leaf "Oracle Linux 7 is installed"]).
  - vm_compute. now left.
  - now left.
Defined.

(** ** More on the ordering of advisory ids *)

Section Comparator.

Import Strconv.

Lemma compareELSA_greater (x y : Z) :
  0 <= x <= maxInt -> 0 <= y <= maxInt ->
  (0 < compareELSA x y <-> String.compare (Itoa x) (Itoa y) = Gt).
Proof.
  intros Hx Hy.
  destruct (Itoa_numeral x Hx) as (Dx & Vx & _).
  destruct (Itoa_numeral y Hy) as (Dy & Vy & _).
  unfold compareELSA. destruct (Z.eqb_spec y x) as [-> | Hne].
  - assert (Hrefl : String.compare (Itoa x) (Itoa x) = Eq).
    { destruct (String.compare (Itoa x) (Itoa x)) eqn:Hc; [reflexivity | |];
        pose proof (String.compare_antisym (Itoa x) (Itoa x)) as Ha;
        rewrite Hc in Ha; discriminate Ha. }
    rewrite Hrefl. split; [lia | discriminate].
  - pose proof (compareELSA_loop_lexicographic _ _ Dx Dy) as Hloop.
    destruct (compareELSA_loop (Itoa x) (Itoa y)) as [z |].
    + destruct Hloop as [[-> ->] | [-> ->]]; split; (lia || discriminate || auto).
    + destruct Hloop as [[Heq _] | [-> Hlen]].
      * apply String.compare_eq_iff in Heq. congruence.
      * split; [lia | discriminate].
Qed.

Lemma compareELSA_zero (x y : Z) :
  0 <= x <= maxInt -> 0 <= y <= maxInt ->
  (compareELSA x y = 0 <-> x = y).
Proof.
  intros Hx Hy. split.
  - intros Hz.
    destruct (String.compare (Itoa x) (Itoa y)) eqn:Hc.
    + apply String.compare_eq_iff in Hc.
      destruct (Itoa_numeral x Hx) as (_ & Vx & _).
      destruct (Itoa_numeral y Hy) as (_ & Vy & _). congruence.
    + apply (compareELSA_lexicographic x y Hx Hy) in Hc. lia.
    + apply (compareELSA_greater x y Hx Hy) in Hc. lia.
  - intros ->. unfold compareELSA. now rewrite Z.eqb_refl.
Qed.

End Comparator.

(** X3.  On non-negative ids [compareELSA] is a consistent comparison: it
    is 0 only for equal ids, exchanging its arguments exchanges the sign
    of its result, and "less than" is transitive. *)
Theorem compareELSA_is_an_order (x y z : Z) :
  0 <= x <= Strconv.maxInt -> 0 <= y <= Strconv.maxInt ->
  0 <= z <= Strconv.maxInt ->
  (compareELSA x y = 0 <-> x = y)
  /\ (compareELSA x y < 0 <-> 0 < compareELSA y x)
  /\ (compareELSA x y < 0 -> compareELSA y z < 0 -> compareELSA x z < 0).
Proof.
  intros Hx Hy Hz. split; [now apply compareELSA_zero |]. split.
  - rewrite (compareELSA_lexicographic x y Hx Hy), (compareELSA_greater y x Hy Hx).
    rewrite (String.compare_antisym (Strconv.Itoa x) (Strconv.Itoa y)).
    destruct (String.compare (Strconv.Itoa y) (Strconv.Itoa x));
      cbn; split; intros H; (reflexivity || discriminate H).
  - rewrite (compareELSA_lexicographic x y Hx Hy),
      (compareELSA_lexicographic y z Hy Hz), (compareELSA_lexicographic x z Hx Hz).
    intros Hxy Hyz. apply OrderedTypeEx.String_as_OT.cmp_lt in Hxy, Hyz.
    apply OrderedTypeEx.String_as_OT.cmp_lt. eapply OrderedTypeEx.String_as_OT.lt_trans; eassumption.
Qed.

Lemma compareELSA_is_an_order_witness :
  (compareELSA 99 100 = 0 <-> 99 = 100)
  /\ (compareELSA 99 100 < 0 <-> 0 < compareELSA 100 99)
  /\ (compareELSA 99 100 < 0 -> compareELSA 100 20070057 < 0 ->
      compareELSA 99 20070057 < 0).
Proof.
  apply (compareELSA_is_an_order 99 100 20070057);
    split; (lia || (vm_compute; discriminate)).
Defined.

(** ** The greatest advisory id *)

Lemma largest_from list : forall acc,
  let r := List.fold_left (fun largest element =>
                             if element >? largest then element else largest)
                          list acc in
  acc <= r /\ (forall x, In x list -> x <= r) /\ (r = acc \/ In r list).
Proof.
  induction list as [| e list IH]; intros acc; cbn [List.fold_left].
  - cbn. split; [lia |]. split; [intros x [] | now left].
  - cbn zeta.
    destruct (Z.gtb_spec e acc) as [Hgt | Hle].
    + destruct (IH e) as (H1 & H2 & H3). cbn zeta in H1, H2, H3.
      split; [lia |]. split.
      * intros x [<- | Hx]; [exact H1 | now apply H2].
      * right. destruct H3 as [-> | H3]; [now left | now right].
    + destruct (IH acc) as (H1 & H2 & H3). cbn zeta in H1, H2, H3.
      split; [exact H1 |]. split.
      * intros x [<- | Hx]; [lia | now apply H2].
      * destruct H3 as [H3 | H3]; [now left | right; now right].
Qed.

(** X4.  [largest] is never negative and is at least every element of
    the list; it is an element of the list, or 0 when no element is
    positive. *)
Theorem largest_is_the_maximum (list : list Z) :
  0 <= largest list
  /\ (forall x, In x list -> x <= largest list)
  /\ (largest list = 0 \/ In (largest list) list).
Proof. apply (largest_from list 0). Qed.

(** ** The cursor through the store *)

Section RoundTrip.

Import Strconv.

Lemma parseDigits_numeral s : forall n,
  0 <= n -> allDigits s = true ->
  n * 10 ^ Strings.len s + decimalValue s <= maxUint64 ->
  parseDigits n s = (n * 10 ^ Strings.len s + decimalValue s, None).
Proof.
  induction s as [| c s IH]; intros n Hn Hd Hmax.
  - cbn. f_equal. unfold Strings.len. cbn. lia.
  - cbn [allDigits] in Hd. apply andb_prop in Hd as [Hc Hd].
    apply Z.leb_le in Hc.
    pose proof (digitVal_nonneg c) as Hc0.
    pose proof (decimalValue_bounds s Hd) as Hs.
    pose proof (len_nonneg s) as Hl.
    cbn [decimalValue] in Hmax |- *. rewrite len_String in Hmax |- *.
    rewrite Z.pow_add_r in Hmax |- * by lia.
    assert (Hp : 1 <= 10 ^ Strings.len s) by (apply Z.pow_le_mono_r with (b := 0); lia).
    cbn [parseDigits]. cbn zeta.
    destruct (Z.ltb_spec 9 (digitVal c)) as [? | _]; [lia |].
    destruct (Z.ltb_spec maxUint64 (n * 10 + digitVal c)) as [Hbig | _]; [nia |].
    rewrite IH; [f_equal; lia | lia | exact Hd | nia].
Qed.

Lemma digit_is_no_sign c :
  digitVal c <= 9 -> Ascii.eqb c "-" || Ascii.eqb c "+" = false.
Proof.
  intros Hc.
  destruct (Ascii.eqb_spec c "-") as [-> | _]; [vm_compute in Hc; congruence |].
  destruct (Ascii.eqb_spec c "+") as [-> | _]; [vm_compute in Hc; congruence |].
  reflexivity.
Qed.

Lemma Atoi_numeral p :
  allDigits p = true -> p <> "" -> decimalValue p <= maxInt ->
  Atoi p = (decimalValue p, None).
Proof.
  intros Hd Hne Hmax. destruct p as [| c p]; [congruence |].
  assert (Hc : digitVal c <= 9).
  { cbn [allDigits] in Hd. apply andb_prop in Hd as [Hc _]. now apply Z.leb_le. }
  unfold Atoi.
  pose proof (digit_is_no_sign c Hc) as Hsign.
  apply orb_false_iff in Hsign as [Hneg Hplus]. rewrite Hneg, Hplus. cbn [orb].
  unfold ParseUint. rewrite (parseDigits_numeral (String c p) 0);
    [| lia | exact Hd | unfold maxInt, maxUint64 in *; lia].
  replace (0 * 10 ^ Strings.len (String c p) + decimalValue (String c p))
    with (decimalValue (String c p)) by lia.
  cbn [negb andb].
  destruct (Z.ltb_spec maxInt (decimalValue (String c p))); [lia | reflexivity].
Qed.

(** [Atoi] reads back what [Itoa] writes. *)
Lemma Atoi_Itoa n : minInt <= n <= maxInt -> Atoi (Itoa n) = (n, None).
Proof.
  intros Hn. destruct (Z.ltb_spec n 0) as [Hneg | Hpos].
  - unfold Itoa. destruct (Z.ltb_spec n 0) as [_ | ?]; [| lia].
    destruct (formatBits_spec 19 (- n) "") as (p & Hp & Hd & Hv & Hne).
    { unfold minInt in Hn. split; [lia |].
      apply Z.le_lt_trans with (m := 2 ^ 63); [lia | reflexivity]. }
    change (S 19) with 20%nat in Hp. rewrite Hp.
    assert (Hnil : forall s, s +:+ "" = s).
    { induction s as [| a s IH]; cbn [String.append]; [reflexivity |].
      f_equal. exact IH. }
    rewrite Hnil. unfold Atoi.
    change (Ascii.eqb "-" "-") with true. cbn [orb].
    unfold ParseUint. destruct p as [| c p]; [congruence |].
    rewrite (parseDigits_numeral (String c p) 0);
      [| lia | exact Hd | unfold minInt, maxUint64 in *; lia].
    replace (0 * 10 ^ Strings.len (String c p) + decimalValue (String c p))
      with (- n) by lia.
    cbn [negb andb].
    destruct (Z.ltb_spec (maxInt + 1) (- n)) as [Hbig | _].
    { unfold minInt, maxInt in *. lia. }
    f_equal. lia.
  - destruct (Itoa_numeral n) as (Hd & Hv & Hne); [lia |].
    rewrite (Atoi_numeral (Itoa n) Hd Hne); [now rewrite Hv | lia].
Qed.

End RoundTrip.

(** X5.  The cursor survives the store: an id other than 0 that is
    written as [Update] writes its flag, with [Itoa], is the cursor the
    next batch reads back; 0 is read back as the baseline. *)
Theorem cursor_round_trip (n : Z) :
  Strconv.minInt <= n <= Strconv.maxInt ->
  Strconv.Atoi (Strconv.Itoa n) = (n, None)
  /\ firstELSA (Strconv.Itoa n) true
     = (if n =? 0 then firstOracle5ELSA else n).
Proof.
  intros Hn. pose proof (Atoi_Itoa n Hn) as Hr. split; [exact Hr |].
  unfold firstELSA. rewrite Hr.
  destruct (n =? 0); reflexivity.
Qed.

Lemma cursor_round_trip_witness :
  Strconv.Atoi (Strconv.Itoa 20194533) = (20194533, None)
  /\ firstELSA (Strconv.Itoa 20194533) true
     = (if 20194533 =? 0 then firstOracle5ELSA else 20194533).
Proof.
  apply (cursor_round_trip 20194533). split; vm_compute; discriminate.
Defined.

(** ** More on substrings *)

Section Occurrences.

Import Strings.

Lemma length_append (s t : string) :
  String.length (s +:+ t) = (String.length s + String.length t)%nat.
Proof.
  induction s as [| c s IH]; cbn [String.append String.length];
    [reflexivity | now rewrite IH].
Qed.

Lemma length_substring s : forall n m,
  (n + m <= String.length s)%nat ->
  String.length (String.substring n m s) = m.
Proof.
  induction s as [| c s IH]; intros n m H; cbn [String.length] in H.
  - assert (n = 0%nat /\ m = 0%nat) as [-> ->] by lia. reflexivity.
  - destruct n as [| n]; cbn [String.substring].
    + destruct m as [| m]; [reflexivity |].
      cbn [String.length]. rewrite IH; [reflexivity | lia].
    + apply IH. lia.
Qed.

Lemma substring_prefix pre : forall rest,
  String.substring 0 (String.length pre) (pre +:+ rest) = pre.
Proof.
  induction pre as [| c pre IH]; intros rest;
    cbn [String.append String.length String.substring].
  - now destruct rest.
  - now rewrite IH.
Qed.

Lemma HasPrefix_empty s : HasPrefix s "" = true.
Proof. now destruct s. Qed.

Lemma HasPrefix_append substr : forall post,
  HasPrefix (substr +:+ post) substr = true.
Proof.
  induction substr as [| c substr IH]; intros post;
    cbn [String.append HasPrefix]; [now destruct post |].
  now rewrite Ascii.eqb_refl, IH.
Qed.

Lemma Index_unfold s substr :
  Index s substr
  = if HasPrefix s substr then 0
    else match s with
         | EmptyString => -1
         | String _ s' =>
             let i := Index s' substr in if i <? 0 then -1 else i + 1
         end.
Proof. destruct s; reflexivity. Qed.

(** The first ": " of a text that has none before its last colon. *)
Lemma Index_colon pre : forall rest,
  Contains (pre +:+ ":") ": " = false ->
  Index (pre +:+ ": " +:+ rest) ": " = len pre.
Proof.
  induction pre as [| c pre IH]; intros rest Hc.
  - cbn [String.append]. rewrite Index_unfold.
    cbn [HasPrefix]. now rewrite HasPrefix_empty.
  - apply Contains_false in Hc.
    change (String c pre +:+ ":") with (String c (pre +:+ ":")) in Hc.
    change (String c pre +:+ ": " +:+ rest)
      with (String c (pre +:+ ": " +:+ rest)).
    rewrite Index_unfold in Hc |- *.
    assert (Hhead : HasPrefix (String c (pre +:+ ": " +:+ rest)) ": "
                    = HasPrefix (String c (pre +:+ ":")) ": ").
    { destruct pre; cbn [String.append HasPrefix];
        now rewrite ?HasPrefix_empty. }
    rewrite Hhead.
    destruct (HasPrefix (String c (pre +:+ ":")) ": "); [discriminate Hc |].
    cbn zeta in Hc |- *. revert Hc.
    destruct (Z.ltb_spec (Index (pre +:+ ":") ": ") 0) as [Hneg | Hpos];
      intros Hc; [| lia].
    rewrite IH.
    + pose proof (len_nonneg pre).
      destruct (Z.ltb_spec (len pre) 0); [lia |].
      unfold len. cbn [String.length]. lia.
    + unfold Contains. now apply Z.leb_gt.
Qed.

End Occurrences.

(** X6.  [name] is the text of the title before its first ": ", with the
    white space around it removed. *)
Theorem name_is_the_title_before_the_colon
  (def : definition) (prefix rest : string) :
  Title def = prefix +:+ ": " +:+ rest ->
  Strings.Contains (prefix +:+ ":") ": " = false ->
  name def = Done (Strings.TrimSpace prefix).
Proof.
  intros Ht Hfirst. unfold name. rewrite Ht, (Index_colon prefix rest Hfirst).
  unfold Strings.sliceTo, Strings.slice, Strings.len.
  rewrite length_append.
  destruct (Z.leb_spec 0 0) as [_ | ?]; [| lia].
  destruct (Z.leb_spec 0 (Z.of_nat (String.length prefix))) as [_ | ?]; [| lia].
  destruct (Z.leb_spec (Z.of_nat (String.length prefix))
              (Z.of_nat (String.length prefix
                         + String.length (": " +:+ rest)))) as [_ | ?]; [| lia].
  cbn [andb Z.to_nat]. rewrite Z.sub_0_r, Nat2Z.id, substring_prefix.
  reflexivity.
Qed.

Lemma name_is_the_title_before_the_colon_witness :
  name (Sim.advisory "ELSA-2017-1234 : Moderate: sample package update" ""
          Sim.fooOn7)
  = Done (Strings.TrimSpace "ELSA-2017-1234 ").
Proof.
  apply (name_is_the_title_before_the_colon
           (Sim.advisory "ELSA-2017-1234 : Moderate: sample package update" ""
              Sim.fooOn7)
           "ELSA-2017-1234 " "Moderate: sample package update");
    reflexivity.
Defined.

(** ** More on descriptions *)

Section OneLine.

Import Strings.

Lemma replaceFrom_shrinks old new :
  (String.length new <= String.length old)%nat -> old <> "" ->
  forall s skip,
    (String.length (replaceFrom old new skip s)
     + Nat.min skip (String.length s) <= String.length s)%nat.
Proof.
  intros Hnew Hold. induction s as [| c s IH]; intros skip;
    cbn [replaceFrom String.length]; [lia |].
  destruct skip as [| k].
  - destruct (HasPrefix (String c s) old) eqn:Hp.
    + apply HasPrefix_len in Hp. unfold len in Hp. cbn [String.length] in Hp.
      rewrite length_append.
      specialize (IH (Nat.pred (String.length old))).
      destruct old as [| o old]; [congruence |]. cbn [String.length] in *.
      cbn [Nat.pred] in *. lia.
    + cbn [String.length]. specialize (IH 0%nat). lia.
  - specialize (IH k). lia.
Qed.

Lemma ReplaceAll_shrinks s k :
  (String.length (ReplaceAll s (lineFeeds (S k)) " ") <= String.length s)%nat.
Proof.
  unfold ReplaceAll.
  pose proof (replaceFrom_shrinks (lineFeeds (S k)) " ") as H.
  specialize (H ltac:(cbn; lia) ltac:(discriminate) s 0%nat). lia.
Qed.

Lemma ReplaceAll_line_feed s :
  noLineFeed (ReplaceAll s (lineFeeds 1) " ") = true.
Proof.
  unfold ReplaceAll. cbn [lineFeeds].
  induction s as [| c s IH]; [reflexivity |].
  cbn [replaceFrom HasPrefix String.length Nat.pred].
  rewrite HasPrefix_empty.
  destruct (Ascii.eqb c "010") eqn:Hc; cbn [andb].
  - cbn [String.append noLineFeed]. exact IH.
  - cbn [noLineFeed]. now rewrite Hc, IH.
Qed.

Lemma ReplaceAll_nothing w k new :
  noLineFeed w = true -> ReplaceAll w (lineFeeds (S k)) new = w.
Proof.
  intros Hw. rewrite <- (append_empty_r w) at 1.
  rewrite replace_piece by exact Hw. apply append_empty_r.
Qed.

End OneLine.

(** X7.  Whatever the description of the advisory is, [description] holds
    no line feed and is not longer than it; a description without line
    feeds is returned as it is. *)
Theorem description_is_one_line (def : definition) :
  noLineFeed (description def) = true
  /\ (String.length (description def) <= String.length (Description def))%nat
  /\ (noLineFeed (Description def) = true -> description def = Description def).
Proof.
  unfold description.
  change (Strings.bytes [10; 10; 10]%nat) with (lineFeeds 3).
  change (Strings.bytes [10; 10]%nat) with (lineFeeds 2).
  change (Strings.bytes [10]%nat) with (lineFeeds 1).
  split; [apply ReplaceAll_line_feed |]. split.
  - etransitivity; [apply ReplaceAll_shrinks |].
    etransitivity; [apply ReplaceAll_shrinks |]. apply ReplaceAll_shrinks.
  - intros Hd.
    rewrite (ReplaceAll_nothing _ 2 " " Hd), (ReplaceAll_nothing _ 1 " " Hd).
    exact (ReplaceAll_nothing _ 0 " " Hd).
Qed.

(** ** More on the feature extractor *)

Section Features.

Context {ext : Collaborators}.

Lemma forRange_returns {A S : Type} (body : S -> A -> exec S) xs :
  (forall st x, In x xs -> exists st', body st x = Done st') ->
  forall st, exists st', forRange body xs st = Done st'.
Proof.
  induction xs as [| x xs IH]; intros Hbody st; cbn [forRange]; [eauto |].
  destruct (Hbody st x (or_introl eq_refl)) as [st1 ->]. cbn.
  apply IH. intros st' y Hy. apply Hbody. now right.
Qed.

Lemma slice_returns s lo hi :
  0 <= lo -> lo <= hi -> hi <= Strings.len s ->
  Strings.slice s lo hi
  = Done (String.substring (Z.to_nat lo) (Z.to_nat (hi - lo)) s).
Proof.
  intros H1 H2 H3. unfold Strings.slice.
  destruct (Z.leb_spec 0 lo); [| lia].
  destruct (Z.leb_spec lo hi); [| lia].
  destruct (Z.leb_spec hi (Strings.len s)); [| lia]. reflexivity.
Qed.

(** The scan of a criterion returns when an installed-release comment
    has a space after its thirteenth byte. *)
Lemma scanCriterion_returns st c :
  (forall rest,
      Strings.Contains (Comment c) " is installed" = true ->
      Strings.sliceFrom (Comment c) 13 = Done rest ->
      Strings.Contains rest " " = true) ->
  exists st', scanCriterion st c = Done st'.
Proof.
  intros Hspace. destruct st as [featureVersion osVersion].
  unfold scanCriterion.
  destruct (Strings.Contains (Comment c) " is installed") eqn:Hi.
  - destruct (Contains_true _ _ Hi) as [Hlo Hhi].
    change (Strings.len " is installed") with 13 in Hhi.
    change (Strings.len "Oracle Linux ") with 13. cbn zeta.
    assert (Hrest : Strings.sliceFrom (Comment c) 13
                    = Done (String.substring 13
                              (Z.to_nat (Strings.len (Comment c) - 13))
                              (Comment c))).
    { unfold Strings.sliceFrom. now rewrite slice_returns by lia. }
    rewrite Hrest. cbn [mbind exec_bind].
    specialize (Hspace _ eq_refl Hrest).
    destruct (Contains_true _ _ Hspace) as [Hlo' Hhi'].
    change (Strings.len " ") with 1 in Hhi'.
    assert (Hlen : Strings.len (String.substring 13
                      (Z.to_nat (Strings.len (Comment c) - 13)) (Comment c))
                   = Strings.len (Comment c) - 13).
    { unfold Strings.len in *. rewrite length_substring by lia. lia. }
    rewrite slice_returns by lia.
    cbn [mbind exec_bind]. eauto.
  - destruct (Strings.Contains (Comment c) " is earlier than ") eqn:He; [| eauto].
    destruct (Contains_true _ _ He) as [Hlo Hhi].
    change (Strings.len " is earlier than ") with 17 in *. cbn zeta.
    unfold Strings.sliceTo, Strings.sliceFrom.
    rewrite !slice_returns by lia. cbn [mbind exec_bind].
    destruct (Valid ParserName _); [| eauto].
    destruct (negb _); eauto.
Qed.


Lemma scanCriterion_spaced st c :
  spaced c = true -> exists st', scanCriterion st c = Done st'.
Proof.
  intros Hs. apply scanCriterion_returns. intros rest Hi Hrest.
  unfold spaced in Hs. rewrite Hi in Hs. cbn [negb orb] in Hs.
  change (Strings.len "Oracle Linux ") with 13 in Hs.
  now rewrite Hrest in Hs.
Qed.

Lemma scanCriterion_unspaced st c :
  spaced c = false -> scanCriterion st c = Panic.
Proof.
  intros Hs. destruct st as [featureVersion osVersion].
  unfold spaced in Hs. apply orb_false_iff in Hs as [Hi Hs].
  apply negb_false_iff in Hi. unfold scanCriterion. rewrite Hi. cbn zeta.
  destruct (Strings.sliceFrom (Comment c) (Strings.len "Oracle Linux "))
    as [rest |] eqn:Hrest; [| reflexivity].
  cbn [mbind exec_bind]. rewrite (Contains_false _ _ Hs).
  unfold Strings.slice.
  change (Strings.len "Oracle Linux " + -1) with 12.
  change (Strings.len "Oracle Linux " <=? 12) with false.
  now rewrite andb_false_r.
Qed.

Lemma addPossibility_returns m possibility :
  forallb spaced possibility = true ->
  exists m', addPossibility m possibility = Done m'.
Proof.
  intros Hs. unfold addPossibility.
  destruct (forRange_returns scanCriterion possibility) with
    (st := (database.AffectedFeature.zero, 0)) as [st ->].
  - intros st c Hc. apply scanCriterion_spaced.
    rewrite forallb_forall in Hs. now apply Hs.
  - cbn [mbind exec_bind]. destruct (resolved _); eauto.
Qed.

Lemma addPossibility_panics m possibility :
  forallb spaced possibility = false ->
  addPossibility m possibility = Panic.
Proof.
  intros Hs. unfold addPossibility.
  assert (Hex : exists c, In c possibility /\ spaced c = false).
  { induction possibility as [| c cs IH]; [discriminate |].
    cbn [forallb] in Hs. apply andb_false_iff in Hs as [Hs | Hs].
    - exists c. split; [now left | exact Hs].
    - destruct (IH Hs) as (c' & Hin & Hc'). exists c'. split; [now right | exact Hc']. }
  destruct Hex as (c & Hin & Hc).
  rewrite (forRange_panics scanCriterion c possibility Hin
             (fun st => scanCriterion_unspaced st c Hc)).
  reflexivity.
Qed.

Lemma yields_once possibility f g :
  yields possibility f -> yields possibility g -> f = g.
Proof.
  intros (st & Hst & -> & _) (st' & Hst' & -> & _). congruence.
Qed.

Lemma addPossibility_done m possibility m' :
  addPossibility m possibility = Done m' ->
  (exists f, yields possibility f /\ m' = <[featureKey f := f]> m)
  \/ ((forall f, ~ yields possibility f) /\ m' = m).
Proof.
  unfold addPossibility.
  destruct (forRange scanCriterion possibility _) as [st |] eqn:Hst;
    cbn [mbind exec_bind]; [| discriminate].
  destruct (resolved _) eqn:Hr; intros [= <-].
  - left. eexists. split; [| reflexivity]. exists st. auto.
  - right. split; [| reflexivity].
    intros f (st' & Hst' & -> & Hr'). congruence.
Qed.

(** What the map of [toFeatures] holds under a key when the loop over
    the possibilities is done: the feature of the last possibility that
    yields one with this key, or what it held before. *)
Lemma forRange_addPossibility_lookup possibilities : forall m m' k f,
  forRange addPossibility possibilities m = Done m' ->
  m' !! k = Some f <->
  (exists before possibility after,
      possibilities = before ++ possibility :: after
      /\ yields possibility f /\ featureKey f = k
      /\ forall q g, In q after -> yields q g -> featureKey g <> k)
  \/ (m !! k = Some f
      /\ forall q g, In q possibilities -> yields q g -> featureKey g <> k).
Proof.
  induction possibilities as [| p ps IH]; intros m m' k f Hrun;
    cbn [forRange] in Hrun.
  - injection Hrun as <-. split.
    + intros Hk. right. split; [exact Hk | intros q g []].
    + intros [(before & q & after & Heq & _) | [Hk _]]; [| exact Hk].
      now destruct before.
  - destruct (addPossibility m p) as [m1 |] eqn:Hp;
      cbn [mbind exec_bind] in Hrun; [| discriminate].
    rewrite (IH m1 m' k f Hrun). clear IH Hrun.
    destruct (addPossibility_done _ _ _ Hp) as [(g & Hg & ->) | [Hnone ->]].
    + split.
      * intros [(before & q & after & -> & Hq & Hk & Hlast) | [Hk Hlast]].
        { left. exists (p :: before), q, after. auto. }
        rewrite lookup_insert in Hk. case_decide as Hkey.
        { injection Hk as <-. left. exists [], p, ps. auto. }
        right. split; [exact Hk |].
        intros q g' [<- | Hq] Hy; [| now apply (Hlast q)].
        now rewrite (yields_once _ _ _ Hy Hg).
      * intros [(before & q & after & Heq & Hq & Hk & Hlast) | [Hk Hlast]].
        { destruct before as [| p' before]; cbn [app] in Heq;
            injection Heq as <- ->.
          - right. rewrite (yields_once _ _ _ Hq Hg) in *.
            rewrite lookup_insert. case_decide; [auto | contradiction].
          - left. exists before, q, after. auto. }
        right. split; [| intros q g' Hq; apply Hlast; now right].
        rewrite lookup_insert. case_decide as Hkey; [| exact Hk].
        now destruct (Hlast p g (or_introl eq_refl) Hg).
    + split.
      * intros [(before & q & after & -> & Hq & Hk & Hlast) | [Hk Hlast]].
        { left. exists (p :: before), q, after. auto. }
        right. split; [exact Hk |].
        intros q g' [<- | Hq] Hy; [now destruct (Hnone g') | now apply (Hlast q)].
      * intros [(before & q & after & Heq & Hq & Hk & Hlast) | [Hk Hlast]].
        { destruct before as [| p' before]; cbn [app] in Heq;
            injection Heq as <- ->.
          - now destruct (Hnone f).
          - left. exists before, q, after. auto. }
        right. split; [exact Hk | intros q g' Hq; apply Hlast; now right].
Qed.

(** The state of the scan of one possibility: a fixed-in version, once
    set, is the accepted version of one of its criterions, which is not
    the sentinel, and the affected version is this one or the sentinel. *)
Lemma scan_fixed_version possibility st :
  forRange scanCriterion possibility (database.AffectedFeature.zero, 0)
  = Done st ->
  database.AffectedFeature.FixedInVersion (fst st) = ""
  \/ (database.AffectedFeature.FeatureType (fst st) = affectedType
      /\ (exists c, In c possibility
            /\ boundsVersion c (database.AffectedFeature.FixedInVersion (fst st)))
      /\ Valid ParserName (database.AffectedFeature.FixedInVersion (fst st)) = true
      /\ database.AffectedFeature.FixedInVersion (fst st) <> MaxVersion
      /\ (database.AffectedFeature.AffectedVersion (fst st)
          = database.AffectedFeature.FixedInVersion (fst st)
          \/ database.AffectedFeature.AffectedVersion (fst st) = MaxVersion)).
Proof.
  apply (forRange_invariant scanCriterion
           (fun st =>
              database.AffectedFeature.FixedInVersion (fst st) = ""
              \/ (database.AffectedFeature.FeatureType (fst st) = affectedType
                  /\ (exists c, In c possibility
                        /\ boundsVersion c
                             (database.AffectedFeature.FixedInVersion (fst st)))
                  /\ Valid ParserName
                       (database.AffectedFeature.FixedInVersion (fst st)) = true
                  /\ database.AffectedFeature.FixedInVersion (fst st) <> MaxVersion
                  /\ (database.AffectedFeature.AffectedVersion (fst st)
                      = database.AffectedFeature.FixedInVersion (fst st)
                      \/ database.AffectedFeature.AffectedVersion (fst st)
                         = MaxVersion))));
    [| now left].
  intros [featureVersion osVersion] c st' Hin Hst. unfold scanCriterion.
  destruct (Strings.Contains (Comment c) " is installed") eqn:Hi.
  - cbn zeta.
    destruct (Strings.sliceFrom _ _) as [rest |]; cbn [mbind exec_bind];
      [| discriminate].
    destruct (Strings.slice _ _ _) as [token |]; cbn [mbind exec_bind];
      [| discriminate].
    intros [= <-]. exact Hst.
  - destruct (Strings.Contains (Comment c) " is earlier than ") eqn:He;
      [| intros [= <-]; exact Hst].
    cbn zeta.
    destruct (Strings.sliceTo _ _) as [nm |]; cbn [mbind exec_bind];
      [| discriminate].
    destruct (Strings.sliceFrom _ _) as [version |] eqn:Hv;
      cbn [mbind exec_bind]; [| discriminate].
    cbn [fst] in Hst.
    destruct (Valid ParserName version) eqn:Hvalid.
    + destruct (String.eqb version MaxVersion) eqn:Hmax; cbn [negb];
        intros [= <-]; cbn.
      * apply String.eqb_eq in Hmax.
        destruct Hst as [Hst | (_ & Hc & Hok & Hne & _)]; [now left |].
        right. repeat split; auto.
      * apply String.eqb_neq in Hmax. right.
        repeat split; auto. exists c. repeat split; auto.
    + intros [= <-]; cbn.
      destruct Hst as [Hst | (_ & Hrest)]; [now left | right; auto].
Qed.

(** [toFeatures] returns exactly when the scan of every possibility
    does. *)
Lemma toFeatures_spaced criteria :
  (exists pkgs, toFeatures criteria = Done pkgs)
  <-> forallb (forallb spaced) (getPossibilities criteria) = true.
Proof.
  unfold toFeatures. split.
  - intros [pkgs Hrun].
    destruct (forallb (forallb spaced) (getPossibilities criteria)) eqn:Hs;
      [reflexivity |].
    assert (Hex : exists p, In p (getPossibilities criteria)
                            /\ forallb spaced p = false).
    { clear Hrun.
      induction (getPossibilities criteria) as [| p ps IH]; [discriminate |].
      cbn [forallb] in Hs. apply andb_false_iff in Hs as [Hs | Hs].
      - exists p. split; [now left | exact Hs].
      - destruct (IH Hs) as (q & Hin & Hq). exists q.
        split; [now right | exact Hq]. }
    destruct Hex as (p & Hin & Hp).
    rewrite (forRange_panics addPossibility p _ Hin
               (fun m => addPossibility_panics m p Hp)) in Hrun.
    discriminate Hrun.
  - intros Hs.
    destruct (forRange_returns addPossibility (getPossibilities criteria))
      with (st := (∅ : gmap string database.AffectedFeature.t)) as [m ->].
    + intros m p Hp. apply addPossibility_returns.
      rewrite forallb_forall in Hs. now apply Hs.
    + cbn [mbind exec_bind]. eauto.
Qed.

End Features.

(** X8. [toFeatures] returns at most one feature per namespace and
    package name: the keys of the features it returns are distinct. *)
Theorem toFeatures_deduplicates {ext : Collaborators} criteria pkgs :
  toFeatures criteria = Done pkgs -> NoDup (List.map featureKey pkgs).
Proof.
  unfold toFeatures.
  destruct (forRange addPossibility (getPossibilities criteria) ∅)
    as [m |] eqn:Hm; cbn; [| discriminate].
  intros [= <-].
  assert (Hkeys : forall k f, m !! k = Some f -> featureKey f = k).
  { apply (forRange_invariant addPossibility
             (fun m => forall k f, m !! k = Some f -> featureKey f = k)
             (getPossibilities criteria)) with (st := ∅) (st' := m);
      [| intros k f Hk; now rewrite lookup_empty in Hk | exact Hm].
    intros m0 possibility m1 _ Hm0. unfold addPossibility.
    destruct (forRange scanCriterion possibility _) as [st |]; cbn;
      [| discriminate].
    destruct (resolved _); intros [= <-]; [| exact Hm0].
    intros k f. rewrite lookup_insert. case_decide as Hk.
    - intros [= <-]. exact Hk.
    - apply Hm0. }
  assert (Heq : List.map featureKey (map_to_list m).*2 = (map_to_list m).*1).
  { assert (Hall : forall kf, kf ∈ map_to_list m -> featureKey kf.2 = kf.1).
    { intros [k f] Hin. apply elem_of_map_to_list in Hin. now apply Hkeys. }
    induction (map_to_list m) as [| kf l IH]; [reflexivity |].
    cbn. rewrite Hall by left. f_equal. apply IH.
    intros kf' Hin. apply Hall. now right. }
  rewrite Heq. apply NoDup_fst_map_to_list.
Qed.

Lemma toFeatures_deduplicates_witness :
  toFeatures (ext := Sim.offline)
    (Sim.OR [Sim.fooOn7;
             Sim.AND [] ["Oracle Linux 7 is installed";
                         "foo is earlier than 0:2.0-1.el7"]] [])
  = Done [Sim.feature "oracle:7" "foo" "0:2.0-1.el7" "0:2.0-1.el7"]
  /\ NoDup (List.map (featureKey)
              [Sim.feature "oracle:7" "foo" "0:2.0-1.el7" "0:2.0-1.el7"]).
Proof.
  assert (H : toFeatures (ext := Sim.offline)
                (Sim.OR [Sim.fooOn7;
                         Sim.AND [] ["Oracle Linux 7 is installed";
                                     "foo is earlier than 0:2.0-1.el7"]] [])
              = Done [Sim.feature "oracle:7" "foo" "0:2.0-1.el7" "0:2.0-1.el7"])
    by (vm_compute; reflexivity).
  split; [exact H |].
  exact (toFeatures_deduplicates (ext := Sim.offline) _ _ H).
Defined.

(** X9. Among the possibilities that yield a feature under the same
    key, the last one wins: [toFeatures] returns a feature exactly when
    some possibility yields it and no later possibility yields a feature
    of the same namespace and package name. *)
Theorem toFeatures_keeps_the_last {ext : Collaborators} criteria pkgs f :
  toFeatures criteria = Done pkgs ->
  In f pkgs <->
  exists before possibility after,
    getPossibilities criteria = before ++ possibility :: after
    /\ yields possibility f
    /\ forall q g, In q after -> yields q g -> featureKey g <> featureKey f.
Proof.
  unfold toFeatures.
  destruct (forRange addPossibility (getPossibilities criteria) ∅)
    as [m |] eqn:Hm; cbn [mbind exec_bind]; [| discriminate].
  intros [= <-]. split.
  - intros Hin.
    apply list_elem_of_In, list_elem_of_fmap in Hin as ([k f'] & -> & Hin).
    apply elem_of_map_to_list in Hin. cbn [snd].
    apply (forRange_addPossibility_lookup _ _ _ _ _ Hm) in Hin
      as [(before & p & after & Heq & Hp & <- & Hlast) | [Hk _]].
    + exists before, p, after. auto.
    + now rewrite lookup_empty in Hk.
  - intros (before & p & after & Heq & Hp & Hlast).
    apply list_elem_of_In, list_elem_of_fmap.
    exists (featureKey f, f). split; [reflexivity |].
    apply elem_of_map_to_list.
    apply (forRange_addPossibility_lookup _ _ _ _ _ Hm).
    left. exists before, p, after. auto.
Qed.

Lemma toFeatures_keeps_the_last_witness :
  In (Sim.feature "oracle:7" "foo" "0:2.0-1.el7" "0:2.0-1.el7")
     [Sim.feature "oracle:7" "foo" "0:2.0-1.el7" "0:2.0-1.el7"]
  <-> exists before possibility after,
        getPossibilities
          (Sim.OR [Sim.fooOn7;
                   Sim.AND [] ["Oracle Linux 7 is installed";
                               "foo is earlier than 0:2.0-1.el7"]] [])
        = before ++ possibility :: after
        /\ yields (ext := Sim.offline) possibility
             (Sim.feature "oracle:7" "foo" "0:2.0-1.el7" "0:2.0-1.el7")
        /\ forall q g, In q after -> yields (ext := Sim.offline) q g ->
             featureKey g
             <> featureKey
                  (Sim.feature "oracle:7" "foo" "0:2.0-1.el7" "0:2.0-1.el7").
Proof.
  apply (toFeatures_keeps_the_last (ext := Sim.offline)).
  vm_compute. reflexivity.
Defined.

(** X10. Every feature that [toFeatures] returns is a binary package in
    a namespace "oracle:<n>" of the rpm format, with a name, whose
    fixed-in version is the version text of a version-bound criterion of
    one of the possibilities, accepted by the validator and different
    from the sentinel; its affected version is the same text or the
    sentinel. *)
Theorem features_are_fixed_packages {ext : Collaborators} criteria pkgs f :
  toFeatures criteria = Done pkgs -> In f pkgs ->
  database.AffectedFeature.FeatureType f = BinaryPackage
  /\ (exists osVersion,
         database.AffectedFeature.Namespace f
         = {| database.Namespace.Name := "oracle:" +:+ Strconv.Itoa osVersion;
              database.Namespace.VersionFormat := ParserName |})
  /\ database.AffectedFeature.FeatureName f <> ""
  /\ (exists possibility c,
         In possibility (getPossibilities criteria) /\ In c possibility
         /\ boundsVersion c (database.AffectedFeature.FixedInVersion f))
  /\ Valid ParserName (database.AffectedFeature.FixedInVersion f) = true
  /\ database.AffectedFeature.FixedInVersion f <> MaxVersion
  /\ (database.AffectedFeature.AffectedVersion f
      = database.AffectedFeature.FixedInVersion f
      \/ database.AffectedFeature.AffectedVersion f = MaxVersion).
Proof.
  intros Hrun Hin.
  destruct (toFeatures_resolved _ _ _ Hrun Hin)
    as (possibility & st & Hp & Hst & -> & Hr).
  destruct (resolved_fields _ Hr) as (Hname & _ & Hfixed).
  destruct (scan_fixed_version _ _ Hst)
    as [Hnil | (Htype & (c & Hc & Hb) & Hvalid & Hmax & Haff)];
    [now destruct Hfixed |].
  destruct st as [featureVersion osVersion]. cbn [fst snd] in *.
  repeat split; try assumption.
  - now exists osVersion.
  - now exists possibility, c.
Qed.

Lemma features_are_fixed_packages_witness :
  database.AffectedFeature.FeatureType Sim.fooFixed
  = BinaryPackage (Collaborators := Sim.offline)
  /\ (exists osVersion,
         database.AffectedFeature.Namespace Sim.fooFixed
         = {| database.Namespace.Name := "oracle:" +:+ Strconv.Itoa osVersion;
              database.Namespace.VersionFormat :=
                ParserName (Collaborators := Sim.offline) |})
  /\ database.AffectedFeature.FeatureName Sim.fooFixed <> ""
  /\ (exists possibility c,
         In possibility (getPossibilities Sim.fooOn7) /\ In c possibility
         /\ boundsVersion c (database.AffectedFeature.FixedInVersion Sim.fooFixed))
  /\ Valid (Collaborators := Sim.offline) (ParserName (Collaborators := Sim.offline))
       (database.AffectedFeature.FixedInVersion Sim.fooFixed) = true
  /\ database.AffectedFeature.FixedInVersion Sim.fooFixed
     <> MaxVersion (Collaborators := Sim.offline)
  /\ (database.AffectedFeature.AffectedVersion Sim.fooFixed
      = database.AffectedFeature.FixedInVersion Sim.fooFixed
      \/ database.AffectedFeature.AffectedVersion Sim.fooFixed
         = MaxVersion (Collaborators := Sim.offline)).
Proof.
  apply (features_are_fixed_packages (ext := Sim.offline) Sim.fooOn7
           [Sim.fooFixed]).
  - vm_compute. reflexivity.
  - now left.
Defined.

(** X11. [toFeatures] returns exactly when every installed-release
    comment among the possibilities has a space after its first thirteen
    bytes; otherwise the slice expression that cuts the release out
    panics. *)
Theorem toFeatures_returns_iff_spaced {ext : Collaborators} criteria :
  (exists pkgs, toFeatures criteria = Done pkgs)
  <-> forallb (forallb spaced) (getPossibilities criteria) = true.
Proof. apply toFeatures_spaced. Qed.

(** ** The synthesizer *)

Section Synthesizer.

Context {ext : Collaborators}.

Lemma fold_perCVE def pkgs : forall cves v vulnerabilities,
  database.VulnerabilityWithAffected.Affected v = pkgs ->
  database.Vulnerability.Description
    (database.VulnerabilityWithAffected.Vulnerability v) = description def ->
  snd (List.fold_left (perCVE def) cves (v, vulnerabilities))
  = vulnerabilities ++ List.map (cveRecord def pkgs) cves.
Proof.
  induction cves as [| c cves IH]; intros v vulnerabilities Hp Hd;
    cbn [List.fold_left List.map].
  - cbn. now rewrite app_nil_r.
  - unfold perCVE at 2. rewrite IH; cbn; auto.
    rewrite <- app_assoc. cbn [app]. do 3 f_equal.
    unfold cveRecord. now rewrite Hp, Hd.
Qed.

Lemma perDefinition_recorded vulnerabilities def out :
  perDefinition vulnerabilities def = Done out <->
  exists group, recorded def group /\ out = vulnerabilities ++ group.
Proof.
  unfold perDefinition, recorded. split.
  - destruct (toFeatures (Criteria def)) as [pkgs |] eqn:Hpkgs;
      cbn [mbind exec_bind]; [| discriminate].
    destruct pkgs as [| p pkgs]; cbn [length Nat.ltb Nat.leb].
    + intros [= <-]. exists []. rewrite app_nil_r.
      split; [exists []; auto | reflexivity].
    + destruct (name def) as [nm |] eqn:Hnm; cbn [mbind exec_bind];
        [| discriminate].
      destruct (CVEs def) as [| c cves] eqn:Hcves; cbn [length Nat.eqb].
      * intros [= <-]. eexists. split; [| reflexivity].
        exists (p :: pkgs). split; [reflexivity |]. eauto.
      * rewrite (fold_perCVE def (p :: pkgs) (c :: cves)) by reflexivity.
        intros [= <-]. eexists. split; [| reflexivity].
        exists (p :: pkgs). split; [reflexivity |]. eauto.
  - intros (group & (pkgs & -> & Hgroup) & ->). cbn [mbind exec_bind].
    destruct pkgs as [| p pkgs]; cbn [length Nat.ltb Nat.leb].
    + rewrite Hgroup. now rewrite app_nil_r.
    + destruct (CVEs def) as [| c cves] eqn:Hcves.
      * destruct Hgroup as (nm & -> & ->). cbn [mbind exec_bind].
        reflexivity.
      * destruct Hgroup as ((nm & ->) & ->). cbn [mbind exec_bind].
        cbn [length Nat.eqb].
        now rewrite (fold_perCVE def (p :: pkgs) (c :: cves)) by reflexivity.
Qed.

Lemma forRange_perDefinition defs : forall vulnerabilities out,
  forRange perDefinition defs vulnerabilities = Done out <->
  exists groups,
    Forall2 recorded defs groups
    /\ out = vulnerabilities ++ List.concat groups.
Proof.
  induction defs as [| def defs IH]; intros vulnerabilities out;
    cbn [forRange].
  - split.
    + intros [= <-]. exists []. split; [constructor |].
      cbn. now rewrite app_nil_r.
    + intros (groups & Hg & ->). apply Forall2_nil_inv_l in Hg as ->.
      cbn. now rewrite app_nil_r.
  - split.
    + destruct (perDefinition vulnerabilities def) as [mid |] eqn:Hdef;
        cbn [mbind exec_bind]; [| discriminate].
      apply perDefinition_recorded in Hdef as (group & Hgroup & ->).
      intros Hrun. apply IH in Hrun as (groups & Hgroups & ->).
      exists (group :: groups). split; [now constructor |].
      cbn [List.concat]. now rewrite app_assoc.
    + intros (groups & Hg & ->).
      apply Forall2_cons_inv_l in Hg as (group & groups' & Hgroup & Hg & ->).
      assert (Hdef : perDefinition vulnerabilities def
                     = Done (vulnerabilities ++ group))
        by (apply perDefinition_recorded; eauto).
      rewrite Hdef. cbn [mbind exec_bind]. apply IH.
      exists groups'. split; [exact Hg |].
      cbn [List.concat]. now rewrite app_assoc.
Qed.

Lemma name_returns def :
  Strings.Contains (Title def) ": " = true -> exists nm, name def = Done nm.
Proof.
  intros Hc. destruct (Contains_true _ _ Hc) as [Hlo Hhi].
  change (Strings.len ": ") with 2 in Hhi.
  unfold name, Strings.sliceTo. rewrite slice_returns by lia.
  cbn [mbind exec_bind]. eauto.
Qed.

(** A definition is recorded exactly when its features can be extracted
    and, if it has any, its title holds the separator. *)
Lemma recorded_iff def :
  (exists group, recorded def group) <->
  forallb (forallb spaced) (getPossibilities (Criteria def)) = true
  /\ (toFeatures (Criteria def) = Done []
      \/ Strings.Contains (Title def) ": " = true).
Proof.
  rewrite <- toFeatures_spaced. unfold recorded. split.
  - intros (group & pkgs & Hpkgs & Hgroup). split; [eauto |].
    destruct pkgs as [| p pkgs]; [now left | right].
    destruct (Strings.Contains (Title def) ": ") eqn:Hc; [reflexivity |].
    apply name_panics in Hc.
    destruct (CVEs def);
      [destruct Hgroup as (nm & Hnm & _) | destruct Hgroup as ((nm & Hnm) & _)];
      congruence.
  - intros [[pkgs Hpkgs] Hname].
    destruct pkgs as [| p pkgs]; [exists [], []; auto |].
    destruct Hname as [Hnil | Hc]; [congruence |].
    destruct (name_returns def Hc) as [nm Hnm].
    destruct (CVEs def) as [| c cves] eqn:Hcves.
    + exists [elsaRecord def nm (p :: pkgs)], (p :: pkgs).
      split; [exact Hpkgs |]. eauto.
    + exists (List.map (cveRecord def (p :: pkgs)) (c :: cves)), (p :: pkgs).
      split; [exact Hpkgs |]. eauto.
Qed.

End Synthesizer.

(** X12. [parseELSA] on a document that decodes returns, without an
    error, the records of its definitions one after the other in the
    order of the document: no record for a definition without a feature,
    one record per CVE (named and linked after the CVE, rated by its
    impact or, when it has none, by the advisory) for a definition with
    CVEs, and else one record under the advisory's name; all records of a
    definition carry its description and its features. *)
Theorem parseELSA_records {ext : Collaborators} ovalReader ov out :
  xmlDecode ovalReader = Some ov ->
  parseELSA ovalReader = Done out <->
  exists groups,
    Forall2 recorded (Definitions ov) groups
    /\ out = (List.concat groups, None).
Proof.
  intros Hdecode. unfold parseELSA. rewrite Hdecode. split.
  - destruct (forRange perDefinition (Definitions ov) []) as [vs |] eqn:Hrun;
      cbn [mbind exec_bind]; [| discriminate].
    intros [= <-]. apply forRange_perDefinition in Hrun as (groups & Hg & ->).
    now exists groups.
  - intros (groups & Hg & ->).
    assert (Hrun : forRange perDefinition (Definitions ov) []
                   = Done (List.concat groups))
      by (apply forRange_perDefinition; exists groups; auto).
    now rewrite Hrun.
Qed.


Lemma parseELSA_records_witness :
  parseELSA (ext := Sim.feed) "five" = Done ([Sim.five], None) <->
  exists groups,
    Forall2 (recorded (ext := Sim.feed))
      [Sim.advisory "ELSA-5: foo update" "" Sim.fooOn7] groups
    /\ ([Sim.five], @None commonerr.error) = (List.concat groups, None).
Proof.
  apply (parseELSA_records (ext := Sim.feed) "five"
           {| Definitions := [Sim.advisory "ELSA-5: foo update" "" Sim.fooOn7] |}).
  reflexivity.
Defined.

(** X13. [parseELSA] returns exactly when the document does not decode
    (the error is then [ErrCouldNotParse]), or when in every definition
    each installed-release comment among the possibilities has a space
    after its first thirteen bytes and the title holds ": " unless the
    definition has no feature; in all other cases it panics. *)
Theorem parseELSA_returns_iff {ext : Collaborators} ovalReader :
  (exists out, parseELSA ovalReader = Done out) <->
  match xmlDecode ovalReader with
  | None => True
  | Some ov =>
      Forall (fun def =>
                forallb (forallb spaced) (getPossibilities (Criteria def)) = true
                /\ (toFeatures (Criteria def) = Done []
                    \/ Strings.Contains (Title def) ": " = true))
             (Definitions ov)
  end.
Proof.
  unfold parseELSA. destruct (xmlDecode ovalReader) as [ov |]; [| split; eauto].
  split.
  - intros [out Hout].
    destruct (forRange perDefinition (Definitions ov) []) as [vs |] eqn:Hrun;
      cbn [mbind exec_bind] in Hout; [| discriminate].
    apply forRange_perDefinition in Hrun as (groups & Hg & _). clear Hout.
    induction Hg as [| def group defs groups Hd _ IH]; constructor; [| exact IH].
    apply recorded_iff. eauto.
  - intros Hall.
    assert (Hg : exists groups, Forall2 recorded (Definitions ov) groups).
    { induction Hall as [| def defs Hd _ [groups IH]]; [exists []; constructor |].
      apply recorded_iff in Hd as [group Hd].
      exists (group :: groups). now constructor. }
    destruct Hg as [groups Hg].
    assert (Hrun : forRange perDefinition (Definitions ov) []
                   = Done (List.concat groups))
      by (apply forRange_perDefinition; exists groups; auto).
    rewrite Hrun. cbn [mbind exec_bind]. eauto.
Qed.

(** ** The whole batch *)

Section Driver.

Context {ext : Collaborators}.

(** The loop over the advisories ends without an error exactly when
    every one of them is downloaded and parsed; it then holds their
    vulnerabilities in the order of the list. *)
Lemma fetchELSAs_all elsaList : forall resp resp',
  fetchELSAs elsaList resp = Done (resp', None) <->
  exists vss,
    Forall2 fetched elsaList vss
    /\ resp' = appendVulnerabilities resp (List.concat vss).
Proof.
  induction elsaList as [| elsa elsaList IH]; intros resp resp';
    cbn [fetchELSAs].
  - split.
    + intros [= <-]. exists []. split; [constructor |].
      cbn [List.concat]. now rewrite appendVulnerabilities_nil.
    + intros (vss & Hv & ->). apply Forall2_nil_inv_l in Hv as ->.
      cbn [List.concat]. now rewrite appendVulnerabilities_nil.
  - split.
    + destruct (GetWithUserAgent (elsaURL elsa)) as [r |] eqn:Hget;
        [| discriminate].
      destruct (Status2xx r) eqn:Hs; cbn [negb]; [| discriminate].
      destruct (parseELSA (Body r)) as [[vs [err |]] |] eqn:Hp;
        cbn [mbind exec_bind snd fst]; try discriminate.
      intros Hrun. apply IH in Hrun as (vss & Hv & ->).
      exists (vs :: vss). split.
      * constructor; [| exact Hv]. exists r. auto.
      * cbn [List.concat]. now rewrite appendVulnerabilities_app.
    + intros (vss & Hv & ->).
      apply Forall2_cons_inv_l in Hv
        as (vs & vss' & (r & Hget & Hs & Hp) & Hv & ->).
      rewrite Hget, Hs. cbn [negb]. rewrite Hp.
      cbn [mbind exec_bind snd fst]. apply IH.
      exists vss'. split; [exact Hv |].
      cbn [List.concat]. now rewrite appendVulnerabilities_app.
Qed.

(** The loop over the advisories touches neither the flags nor the
    notes of the response. *)
Lemma fetchELSAs_flags elsaList : forall resp resp' err,
  fetchELSAs elsaList resp = Done (resp', err) ->
  vulnsrc.Flags resp' = vulnsrc.Flags resp
  /\ vulnsrc.Notes resp' = vulnsrc.Notes resp.
Proof.
  induction elsaList as [| elsa elsaList IH]; intros resp resp' err;
    cbn [fetchELSAs].
  - intros [= <- <-]. auto.
  - destruct (GetWithUserAgent (elsaURL elsa)) as [r |];
      [| intros [= <- <-]; auto].
    destruct (Status2xx r); cbn [negb]; [| intros [= <- <-]; auto].
    destruct (parseELSA (Body r)) as [[vs [e |]] |];
      cbn [mbind exec_bind snd fst]; try discriminate.
    + intros [= <- <-]. auto.
    + intros Hrun. apply IH in Hrun. exact Hrun.
Qed.

Lemma parseDigits_range s : forall n,
  0 <= n <= Strconv.maxUint64 ->
  0 <= fst (Strconv.parseDigits n s) <= Strconv.maxUint64.
Proof.
  induction s as [| c s IH]; intros n Hn; cbn [Strconv.parseDigits].
  - exact Hn.
  - cbn zeta. destruct (Z.ltb_spec 9 (Strconv.digitVal c)); [cbn; split; [lia | discriminate] |].
    destruct (Z.ltb_spec Strconv.maxUint64 (n * 10 + Strconv.digitVal c)).
    + cbn. split; [discriminate | lia].
    + apply IH. pose proof (digitVal_nonneg c). lia.
Qed.

(** [Atoi] gives a value of the range of [int], also with an error. *)
Lemma Atoi_range s :
  Strconv.minInt <= fst (Strconv.Atoi s) <= Strconv.maxInt.
Proof.
  assert (H0 : Strconv.minInt <= 0 <= Strconv.maxInt) by (split; discriminate).
  assert (Hmin : Strconv.minInt = - (Strconv.maxInt + 1)) by reflexivity.
  unfold Strconv.Atoi. destruct s as [| c s]; [exact H0 |]. cbn zeta.
  set (body := if Ascii.eqb c "-" || Ascii.eqb c "+" then s else String c s).
  assert (Hun : 0 <= fst (Strconv.ParseUint body) <= Strconv.maxUint64).
  { unfold Strconv.ParseUint. destruct body; [split; discriminate |].
    apply parseDigits_range. split; discriminate. }
  destruct (Strconv.ParseUint body) as [un [[] |]]; cbn [fst] in Hun;
    try exact H0.
  - destruct (Ascii.eqb c "-"); cbn [negb andb].
    + destruct (Z.ltb_spec (Strconv.maxInt + 1) un); cbn [fst]; lia.
    + destruct (Z.ltb_spec Strconv.maxInt un); cbn [fst]; lia.
  - destruct (Ascii.eqb c "-"); cbn [negb andb].
    + destruct (Z.ltb_spec (Strconv.maxInt + 1) un); cbn [fst]; lia.
    + destruct (Z.ltb_spec Strconv.maxInt un); cbn [fst]; lia.
Qed.

Lemma listELSAs_range lines : forall cursor acc,
  Forall (fun x => Strconv.minInt <= x <= Strconv.maxInt) acc ->
  Forall (fun x => Strconv.minInt <= x <= Strconv.maxInt)
    (List.fold_left
       (fun elsaList line =>
          match FindStringSubmatch line with
          | [_; digits] =>
              let elsaNo := fst (Strconv.Atoi digits) in
              if compareELSA elsaNo cursor >? 0
              then elsaList ++ [elsaNo] else elsaList
          | _ => elsaList
          end)
       lines acc).
Proof.
  induction lines as [| line lines IH]; intros cursor acc Hacc;
    cbn [List.fold_left]; [exact Hacc |].
  apply IH.
  destruct (FindStringSubmatch line) as [| whole [| digits [| ? ?]]];
    try exact Hacc.
  cbn zeta. destruct (_ >? 0); [| exact Hacc].
  apply List.Forall_app. split; [exact Hacc |].
  constructor; [apply Atoi_range | constructor].
Qed.

Lemma largest_range list :
  Forall (fun x => Strconv.minInt <= x <= Strconv.maxInt) list ->
  0 <= largest list <= Strconv.maxInt.
Proof.
  intros Hall. destruct (largest_from list 0) as (H0 & _ & Hin).
  cbn zeta in H0, Hin. fold (largest list) in H0, Hin.
  split; [exact H0 |].
  destruct Hin as [-> | Hin]; [discriminate |].
  rewrite List.Forall_forall in Hall. now apply Hall.
Qed.

End Driver.

(** X14. With the cursor read and the update list downloaded, [Update]
    ends without an error exactly when every selected advisory is
    downloaded and parsed; the response then holds their vulnerabilities
    in the order of the list, no note, and as its only flag the numeral
    of the largest selected id, or no flag when nothing was selected. *)
Theorem Update_succeeds_with_all_fetched
  {ext : Collaborators} (datastore : Datastore) (flagValue : string) (ok : bool)
  (index : Response) (resp : vulnsrc.UpdateResponse) :
  FindKeyValueAndRollback datastore updaterFlag = (flagValue, ok, None) ->
  GetWithUserAgent ovalURI = Some index ->
  Status2xx index = true ->
  Update datastore = Done (resp, None) <->
  exists vss,
    Forall2 fetched
      (listELSAs (firstELSA flagValue ok) (scanLines (Body index))) vss
    /\ resp
       = {| vulnsrc.Flags :=
              match listELSAs (firstELSA flagValue ok) (scanLines (Body index))
              with
              | [] => ∅
              | elsaList => {[ updaterFlag := Strconv.Itoa (largest elsaList) ]}
              end;
            vulnsrc.Notes := [];
            vulnsrc.Vulnerabilities := List.concat vss |}.
Proof.
  intros Hkv Hget Hs. unfold Update. rewrite Hkv, Hget, Hs. cbn [negb].
  set (elsaList := listELSAs _ _). split.
  - destruct (fetchELSAs elsaList vulnsrc.zero) as [[resp' [err |]] |] eqn:Hrun;
      cbn [mbind exec_bind snd fst]; try discriminate.
    apply fetchELSAs_all in Hrun as (vss & Hv & ->).
    intros Hresp. exists vss. split; [exact Hv |].
    destruct elsaList; cbn in Hresp; now injection Hresp as <-.
  - intros (vss & Hv & ->).
    assert (Hrun : fetchELSAs elsaList vulnsrc.zero
                   = Done (appendVulnerabilities vulnsrc.zero (List.concat vss),
                           None))
      by (apply fetchELSAs_all; eauto).
    rewrite Hrun. cbn [mbind exec_bind snd fst].
    destruct elsaList; reflexivity.
Qed.

Lemma Update_succeeds_with_all_fetched_witness :
  Update (ext := Sim.fullFeed) Sim.store
  = Done ({| vulnsrc.Flags := {[ updaterFlag := "9" ]};
             vulnsrc.Notes := [];
             vulnsrc.Vulnerabilities := [Sim.five; Sim.nine; Sim.seven] |},
          None).
Proof.
  apply (Update_succeeds_with_all_fetched (ext := Sim.fullFeed) Sim.store "3"
           true
           (200, "com.oracle.elsa-5.xml" +:+ Sim.LF
                 +:+ "com.oracle.elsa-9.xml" +:+ Sim.LF
                 +:+ "com.oracle.elsa-7.xml" +:+ Sim.LF)).
  - reflexivity.
  - reflexivity.
  - reflexivity.
  - exists [[Sim.five]; [Sim.nine]; [Sim.seven]]. split.
    + repeat constructor.
      * exists (200, "five"). repeat split.
      * exists (200, "nine"). repeat split.
      * exists (200, "seven"). repeat split.
    + vm_compute. reflexivity.
Defined.

(** X15. Whenever [Update] returns an error, the response it returns
    with it proposes no flag and holds no note: a failed batch never
    moves the cursor. *)
Theorem Update_error_sets_no_flag
  {ext : Collaborators} (datastore : Datastore)
  (resp : vulnsrc.UpdateResponse) (err : commonerr.error) :
  Update datastore = Done (resp, Some err) ->
  vulnsrc.Flags resp = ∅ /\ vulnsrc.Notes resp = [].
Proof.
  unfold Update.
  destruct (FindKeyValueAndRollback datastore updaterFlag)
    as [[flagValue ok] [e |]]; [intros [= <- _]; auto |].
  destruct (GetWithUserAgent ovalURI) as [r |]; [| intros [= <- _]; auto].
  destruct (Status2xx r); cbn [negb]; [| intros [= <- _]; auto].
  destruct (fetchELSAs _ vulnsrc.zero) as [[resp' [e |]] |] eqn:Hrun;
    cbn [mbind exec_bind snd fst]; try discriminate.
  - intros [= <- _]. apply (fetchELSAs_flags _ _ _ _ Hrun).
  - destruct (0 <? length _)%nat; discriminate.
Qed.

Lemma Update_error_sets_no_flag_witness :
  vulnsrc.Flags
    {| vulnsrc.Flags := ∅; vulnsrc.Notes := [];
       vulnsrc.Vulnerabilities := [Sim.five; Sim.nine] |} = ∅
  /\ vulnsrc.Notes
       {| vulnsrc.Flags := ∅; vulnsrc.Notes := [];
          vulnsrc.Vulnerabilities := [Sim.five; Sim.nine] |} = [].
Proof.
  apply (Update_error_sets_no_flag (ext := Sim.feed) Sim.store _
           commonerr.ErrCouldNotDownload).
  vm_compute. reflexivity.
Defined.

(** X16. A flag that [Update] proposes is read back by the next batch as
    its cursor: its value is the numeral of an id between 0 and the
    largest [int], which [Atoi] parses without an error, and the cursor
    computed from it is this id, or the baseline when the id is 0. *)
Theorem proposed_flag_is_the_next_cursor
  {ext : Collaborators} (datastore : Datastore)
  (resp : vulnsrc.UpdateResponse) (err : option commonerr.error)
  (key value : string) :
  Update datastore = Done (resp, err) ->
  vulnsrc.Flags resp !! key = Some value ->
  key = updaterFlag /\ err = None
  /\ exists elsa,
       value = Strconv.Itoa elsa
       /\ 0 <= elsa <= Strconv.maxInt
       /\ Strconv.Atoi value = (elsa, None)
       /\ firstELSA value true = (if elsa =? 0 then firstOracle5ELSA else elsa).
Proof.
  unfold Update.
  destruct (FindKeyValueAndRollback datastore updaterFlag)
    as [[flagValue ok] [e |]];
    [intros [= <- _] Hk; now destruct (lookup_empty_Some (M := gmap string) key value) |].
  destruct (GetWithUserAgent ovalURI) as [r |];
    [| intros [= <- _] Hk; now destruct (lookup_empty_Some (M := gmap string) key value)].
  destruct (Status2xx r); cbn [negb];
    [| intros [= <- _] Hk; now destruct (lookup_empty_Some (M := gmap string) key value)].
  set (elsaList := listELSAs _ _).
  destruct (fetchELSAs elsaList vulnsrc.zero) as [[resp' [e |]] |] eqn:Hrun;
    cbn [mbind exec_bind snd fst]; try discriminate.
  { intros [= <- _] Hk. destruct (fetchELSAs_flags _ _ _ _ Hrun) as [Hf _].
    rewrite Hf in Hk.
    now destruct (lookup_empty_Some (M := gmap string) key value). }
  destruct (0 <? length elsaList)%nat.
  - intros [= <- <-]. cbn [vulnsrc.Flags]. intros Hk.
    apply lookup_singleton_Some in Hk as [<- <-].
    split; [reflexivity |]. split; [reflexivity |].
    assert (Hr : 0 <= largest elsaList <= Strconv.maxInt).
    { apply largest_range. apply listELSAs_range. constructor. }
    assert (Ha : Strconv.Atoi (Strconv.Itoa (largest elsaList))
                 = (largest elsaList, None)).
    { apply Atoi_Itoa. unfold Strconv.minInt. lia. }
    exists (largest elsaList). repeat split; try tauto.
    unfold firstELSA. rewrite Ha.
    destruct (largest elsaList =? 0); reflexivity.
  - intros [= <- _] Hk. destruct (fetchELSAs_flags _ _ _ _ Hrun) as [Hf _].
    rewrite Hf in Hk.
    now destruct (lookup_empty_Some (M := gmap string) key value).
Qed.

Lemma proposed_flag_is_the_next_cursor_witness :
  "oracleUpdater" = updaterFlag /\ @None commonerr.error = None
  /\ exists elsa,
       "9" = Strconv.Itoa elsa
       /\ 0 <= elsa <= Strconv.maxInt
       /\ Strconv.Atoi "9" = (elsa, None)
       /\ firstELSA "9" true = (if elsa =? 0 then firstOracle5ELSA else elsa).
Proof.
  apply (proposed_flag_is_the_next_cursor (ext := Sim.fullFeed) Sim.store
           {| vulnsrc.Flags := {[ updaterFlag := "9" ]};
              vulnsrc.Notes := [];
              vulnsrc.Vulnerabilities := [Sim.five; Sim.nine; Sim.seven] |}).
  - vm_compute. reflexivity.
  - vm_compute. reflexivity.
Defined.

(** ** The updater at work *)

Example name_of_title :
  name (Sim.advisory "ADV-2017-1234: Moderate: sample package update" ""
          Sim.fooOn7)
  = Done "ADV-2017-1234".
Proof. reflexivity. Qed.

Example severity_of_labels :
  List.map severity
    ["N/A"; "low"; "Moderate"; "Important"; "HIGH"; "critical"; "urgent"]
  = [database.NegligibleSeverity; database.LowSeverity;
     database.MediumSeverity; database.HighSeverity; database.HighSeverity;
     database.CriticalSeverity; database.UnknownSeverity].
Proof. reflexivity. Qed.

(** A criterion with an ignored marker is in no possibility. *)
Example signature_is_ignored :
  getPossibilities
    (Sim.AND [] ["X"; "openssl is signed with the Oracle Linux 7 key"])
  = [[Sim.leaf "X"]].
Proof. reflexivity. Qed.

(** Two possibilities for one package on one release leave one feature. *)
Example one_feature_per_package :
  exists fixed,
    toFeatures (ext := Sim.offline)
      (Sim.OR [Sim.AND [] ["Oracle Linux 7 is installed";
                           "foo is earlier than 0:1.0-1.el7"];
               Sim.AND [] ["Oracle Linux 7 is installed";
                           "foo is earlier than 0:2.0-1.el7"]] [])
    = Done [Sim.feature "oracle:7" "foo" fixed fixed].
Proof. exists "0:2.0-1.el7". vm_compute. reflexivity. Qed.

(** With the cursor at 3 and the advisories 5, 9 and 7 all parsed, the
    flag proposed is 9. *)
Example Update_proposes_largest :
  Update (ext := Sim.fullFeed) Sim.store
  = Done ({| vulnsrc.Flags := {[ updaterFlag := "9" ]};
             vulnsrc.Notes := [];
             vulnsrc.Vulnerabilities := [Sim.five; Sim.nine; Sim.seven] |},
          None).
Proof. vm_compute. reflexivity. Qed.
